(** * TechMentor-AI: the retrieval-augmented generation pipeline

    A shallow embedding of the decision logic of

      - [src/preprocessing/chunker.py]   (TextChunker._chunk_text)
      - [src/rag/retriever.py]           (Retriever.retrieve, format_for_prompt)
      - [src/llm/model.py]               (LocalLLM.generate)
      - [src/rag/generator.py]           (Generator)

    Python [str] values are [string]s whose characters are the code points
    U+0000..U+00FF; [int] configuration values are [Z]; [dict]s with string
    keys are [gmap string _].  The vector index, the web search, the page
    fetcher and the language model are collaborators behind the objects
    that own them: they are fields of the records that stand for these
    objects.  [str.format] and the iteration order of a [set] are Section
    variables. *)

From Stdlib Require Import ZArith Ascii String Lia.
From stdpp Require Import gmap strings pretty list.

(** ** Python built-ins used by the pipeline *)

Module Py.

(** The one-character string ["\n"]. *)
Definition LF : string := String "010"%char "".

(** [len(s)] *)
Definition len (s : string) : Z := Z.of_nat (String.length s).

(** Truth value of a [str]: non-empty. *)
Definition truthy (s : string) : bool := bool_decide (s ≠ "").

(** [c.isspace()], which is also the class [\s] of [re] on [str] patterns:
    TAB..CR, FS..US, SPACE, NEL and NBSP in the range modelled. *)
Definition is_space (c : ascii) : bool :=
  let n := nat_of_ascii c in
  ((9 <=? n) && (n <=? 13)) || ((28 <=? n) && (n <=? 32))
  || (n =? 133) || (n =? 160).

(** [s.lstrip()], [s.rstrip()], [s.strip()] *)
Fixpoint lstrip (s : string) : string :=
  match s with
  | "" => ""
  | String c s' => if is_space c then lstrip s' else s
  end.

Fixpoint rstrip (s : string) : string :=
  match s with
  | "" => ""
  | String c s' =>
      match rstrip s' with
      | "" => if is_space c then "" else String c ""
      | r => String c r
      end
  end.

Definition strip (s : string) : string := rstrip (lstrip s).

(** Push a character on the first piece of a non-empty list of pieces. *)
Definition cons_head (c : ascii) (ps : list string) : list string :=
  match ps with
  | [] => [String c ""]
  | p :: ps' => String c p :: ps'
  end.

(** [s.split()]: the maximal runs of non-whitespace characters. *)
Fixpoint split (s : string) : list string :=
  match s with
  | "" => []
  | String c s' =>
      if is_space c then split s'
      else match s' with
           | "" => [String c ""]
           | String c' _ =>
               if is_space c' then String c "" :: split s'
               else cons_head c (split s')
           end
  end.

(** [sep.join(l)] *)
Definition join (sep : string) (l : list string) : string :=
  String.concat sep l.

(** [l[start:]] with Python's treatment of negative and oversized bounds. *)
Definition slice_from {A} (start : Z) (l : list A) : list A :=
  let n := Z.of_nat (length l) in
  let start' := if (start <? 0)%Z then Z.max 0 (start + n) else Z.min start n in
  drop (Z.to_nat start') l.

(** [s[:stop]] for a non-negative [stop]. *)
Definition slice_to (stop : nat) (s : string) : string :=
  String.substring 0 stop s.

(** [s1 in s2] *)
Fixpoint contains (needle s : string) : bool :=
  String.prefix needle s
  || match s with
     | "" => false
     | String _ s' => contains needle s'
     end.

(** [str(n)] for a non-negative [int]. *)
Definition str (n : nat) : string := pretty n.

(** [c * n] for a one-character string [c]. *)
Fixpoint repeat_char (c : ascii) (n : nat) : string :=
  match n with
  | O => ""
  | S n' => String c (repeat_char c n')
  end.

(** The sentence splitter [re.split(r'(?<=[.!?])\s+', text)]: a separator
    is a maximal run of whitespace that directly follows [.], [!] or [?]. *)
Definition is_terminal (c : ascii) : bool :=
  bool_decide (c = "."%char ∨ c = "!"%char ∨ c = "?"%char).

Inductive scan := InText (after_terminal : bool) | InSep.

Fixpoint re_split_go (st : scan) (s : string) : list string :=
  match s with
  | "" => [""]
  | String c s' =>
      if is_space c then
        match st with
        | InSep => re_split_go InSep s'
        | InText true => "" :: re_split_go InSep s'
        | InText false => cons_head c (re_split_go (InText false) s')
        end
      else cons_head c (re_split_go (InText (is_terminal c)) s')
  end.

Definition re_split_sentences (text : string) : list string :=
  re_split_go (InText false) text.

End Py.

(** ** [src/preprocessing/chunker.py] *)

Module chunker.
Import Py.

(** The fields of [TextChunker] that [_chunk_text] reads. *)
Record TextChunker := {
  chunk_size : Z;
  chunk_overlap : Z;
  min_chunk_length : Z
}.

(** The values [__init__] falls back to. *)
Definition default_chunker : TextChunker :=
  {| chunk_size := 500; chunk_overlap := 50; min_chunk_length := 100 |}.

Record Chunk := {
  text : string;
  metadata : gmap string string
}.

(** The seed of the chunk that follows a closed buffer (lines 47-48). *)
Definition overlap_text (self : TextChunker) (current_chunk : string) : string :=
  let words := split current_chunk in
  if (Z.of_nat (length words) >? chunk_overlap self)%Z
  then join " " (slice_from (- chunk_overlap self) words)
  else "".

(** One iteration of the loop over the sentences (lines 37-55); the state
    is the pair of [chunks] and [current_chunk]. *)
Definition chunk_step (self : TextChunker) (md : gmap string string)
    (st : list Chunk * string) (sentence : string) : list Chunk * string :=
  let '(chunks, current_chunk) := st in
  if ((len current_chunk + len sentence >? chunk_size self)
      && (len current_chunk >=? min_chunk_length self))%Z
  then (chunks ++ [{| text := strip current_chunk; metadata := md |}],
        overlap_text self current_chunk +:+ " " +:+ sentence)
  else (chunks,
        if truthy current_chunk then current_chunk +:+ " " +:+ sentence
        else sentence).

(** The final flush (lines 58-62). *)
Definition flush (self : TextChunker) (md : gmap string string)
    (st : list Chunk * string) : list Chunk :=
  let '(chunks, current_chunk) := st in
  if truthy current_chunk && (len current_chunk >=? min_chunk_length self)%Z
  then chunks ++ [{| text := strip current_chunk; metadata := md |}]
  else chunks.

Definition chunk_sentences (self : TextChunker) (md : gmap string string)
    (sentences : list string) : list Chunk :=
  flush self md (foldl (chunk_step self md) ([], "") sentences).

Definition _chunk_text (self : TextChunker) (text : string)
    (md : gmap string string) : list Chunk :=
  chunk_sentences self md (re_split_sentences text).

End chunker.

(** ** [src/rag/retriever.py] *)

Module retriever.
Import Py.

(** The result shape built by [ChromaDBManager.search]; [distance] is read
    by nothing in the pipeline and is left out. *)
Record RetrievedDocument := {
  text : string;
  metadata : gmap string string;
  id : string
}.

(** [self.vector_db.search] is the vector index; [self.top_k] its bound. *)
Record Retriever := {
  vector_db_search : string → Z → list RetrievedDocument;
  top_k : Z
}.

(** The inner loop over [filters.items()] with its [break] (lines 44-47). *)
Fixpoint matches_filters (items : list (string * string))
    (md : gmap string string) : bool :=
  match items with
  | [] => true
  | (key, value) :: items' =>
      match md !! key with
      | Some v => if bool_decide (v ≠ value) then false
                  else matches_filters items' md
      | None => matches_filters items' md
      end
  end.

(** The outer loop over [results] (lines 41-49). *)
Fixpoint apply_filters (items : list (string * string))
    (results : list RetrievedDocument) : list RetrievedDocument :=
  match results with
  | [] => []
  | doc :: results' =>
      if matches_filters items (metadata doc)
      then doc :: apply_filters items results'
      else apply_filters items results'
  end.

(** [filters = None] is the default argument. *)
Definition retrieve (self : Retriever) (query : string)
    (filters : option (gmap string string)) : list RetrievedDocument :=
  let results := vector_db_search self query (top_k self) in
  match filters with
  | Some f =>
      if bool_decide (f ≠ ∅) && bool_decide (results ≠ [])
      then apply_filters (map_to_list f) results
      else results
  | None => results
  end.

(** The loop of [format_for_prompt] (lines 62-70); [i] is the index that
    [enumerate] hands out.  A [RetrievedDocument] always has its
    ["metadata"] key, so the test [["metadata" in doc]] is true; [.get]
    yields [None] for an absent source, which is falsy like [""]. *)
Fixpoint format_loop (i : nat) (formatted_text : string)
    (results : list RetrievedDocument) : string :=
  match results with
  | [] => formatted_text
  | doc :: results' =>
      let formatted_text :=
        formatted_text +:+ "[Document " +:+ str (i + 1) +:+ "]" +:+ LF in
      let formatted_text := formatted_text +:+ text doc +:+ LF in
      let formatted_text :=
        match metadata doc !! "source" with
        | Some source =>
            if truthy source
            then formatted_text +:+ "Source: " +:+ source +:+ LF
            else formatted_text
        | None => formatted_text
        end in
      let formatted_text :=
        formatted_text +:+ LF +:+ repeat_char "-" 40 +:+ LF +:+ LF in
      format_loop (S i) formatted_text results'
  end.

Definition format_for_prompt (results : list RetrievedDocument) : string :=
  match results with
  | [] => "No relevant information found."
  | _ => format_loop 0 ("RELEVANT INFORMATION:" +:+ LF +:+ LF) results
  end.

End retriever.

(** ** [src/llm/model.py] *)

Module model.
Import Py.

(** A Python call either returns or raises; [Raise msg] carries [str(e)]. *)
Inductive result (A : Type) : Type :=
| Ok (a : A)
| Raise (msg : string).
Global Arguments Ok {A} a.
Global Arguments Raise {A} msg.

Definition bind {A B} (r : result A) (k : A → result B) : result B :=
  match r with
  | Ok a => k a
  | Raise msg => Raise msg
  end.

(** [try: body except Exception as e: handler(str(e))] *)
Definition try_except {A} (body : result A) (handler : string → A) : A :=
  match body with
  | Ok a => a
  | Raise msg => handler msg
  end.

(** The loaded model, called on a prompt. *)
Definition Model := string → result string.

(** [model] is [self.model]; [model_file] is what the disk holds at
    [self.model_path]: nothing, or a file that [from_pretrained] loads
    or fails on. *)
Record LocalLLM := {
  model : option Model;
  model_file : option (result Model)
}.

Definition load_model (self : LocalLLM) : bool * LocalLLM :=
  match model_file self with
  | None => (false, self)
  | Some loaded =>
      try_except
        (bind loaded (λ m,
           Ok (true, {| model := Some m; model_file := model_file self |})))
        (λ _, (false, self))
  end.

(** The guarded call of lines 57-67. *)
Definition call_model (self : LocalLLM) (prompt : string) : string :=
  try_except
    (match model self with
     | Some m => m prompt
     | None => Raise "'NoneType' object is not callable"
     end)
    (λ msg, "Error during text generation: " +:+ msg).

Definition generate (self : LocalLLM) (prompt : string) : string * LocalLLM :=
  match model self with
  | None =>
      let '(success, self') := load_model self in
      if success then (call_model self' prompt, self')
      else ("Error: Model could not be loaded. Please check the logs.", self')
  | Some _ => (call_model self prompt, self)
  end.

End model.

(** ** [src/rag/generator.py] *)

Module generator.
Import Py.
Export retriever model.

(** A search hit; [url] is [None] both when the key is absent and when
    the link element had no [href]. *)
Record SearchResult := {
  title : string;
  url : option string;
  snippet : string
}.

(** [DynamicSearchEngine]: both methods catch every exception and return
    a value, so they are total. *)
Record DynamicSearchEngine := {
  search : string → Z → list SearchResult;
  extract_content : string → string
}.

Record Generator := {
  prompt_template : string;
  dynamic_search_enabled : bool;
  llm : LocalLLM;
  retriever : Retriever;
  dynamic_search : DynamicSearchEngine
}.

(** The response envelope. *)
Record GenerationResponse := {
  question : string;
  answer : string;
  sources : list string;
  used_dynamic_search : bool
}.

Definition is_content_relevant (self : Generator) (question : string)
    (retrieved_docs : list RetrievedDocument) : bool :=
  match retrieved_docs with
  | [] => false
  | _ =>
      if (Z.of_nat (length retrieved_docs) <? 2)%Z then false
      else
        let total_content_length :=
          foldl (λ acc doc, (acc + len (text doc))%Z) 0%Z retrieved_docs in
        if (total_content_length <? 500)%Z then false else true
  end.

(** The loop of [perform_dynamic_search] (lines 67-71); [i] is the index
    that [enumerate] hands out. *)
Fixpoint extract_all (self : Generator) (i : nat)
    (search_results : list SearchResult) : list string :=
  match search_results with
  | [] => []
  | result :: search_results' =>
      match url result with
      | Some u =>
          if truthy u
          then ("[Source " +:+ str (i + 1) +:+ ": " +:+ u +:+ "]" +:+ LF
                +:+ extract_content (dynamic_search self) u +:+ LF)
               :: extract_all self (S i) search_results'
          else extract_all self (S i) search_results'
      | None => extract_all self (S i) search_results'
      end
  end.

(** [combined_content] before the length check (line 74). *)
Definition combined_content (self : Generator)
    (search_results : list SearchResult) : string :=
  join LF (extract_all self 0 search_results).

Definition perform_dynamic_search (self : Generator) (question : string)
    : string :=
  let search_results := search (dynamic_search self) question 3 in
  match search_results with
  | [] => "No relevant information found from web search."
  | _ =>
      let combined_content := combined_content self search_results in
      let max_length := 4000 in
      if (len combined_content >? Z.of_nat max_length)%Z
      then slice_to max_length combined_content +:+ "... [content truncated]"
      else combined_content
  end.

(** Lines 88-111 of [generate_response]: the local retrieval, the gate and
    the merge.  The result is [(context, sources, dynamic_content)]. *)
Definition assemble_context (self : Generator) (question : string)
    : string * list string * option string :=
  let retrieved_docs := retrieve (retriever self) question None in
  let sources :=
    (λ doc, default "Unknown" (metadata doc !! "source")) <$> retrieved_docs in
  if dynamic_search_enabled self
     && negb (is_content_relevant self question retrieved_docs)
  then
    let dynamic_content := perform_dynamic_search self question in
    if truthy dynamic_content
       && bool_decide
            (dynamic_content ≠ "No relevant information found from web search.")
    then
      let context := format_for_prompt retrieved_docs in
      let context :=
        if bool_decide (context = "No relevant information found.")
        then dynamic_content
        else context +:+ LF +:+ LF +:+ "ADDITIONAL WEB SEARCH RESULTS:" +:+ LF
             +:+ dynamic_content in
      (context, sources ++ ["Dynamic Web Search"], Some dynamic_content)
    else (format_for_prompt retrieved_docs, sources, Some dynamic_content)
  else (format_for_prompt retrieved_docs, sources, None).

Section with_builtins.

(** [template.format(context=..., question=...)]: it raises on a template
    with a field other than the two, or with unbalanced braces. *)
Variable str_format : string → string → string → result string.

(** [list(set(l))]: the order in which a set is iterated. *)
Variable list_of_set : list string → list string.

(** Lines 114-131. *)
Definition build_prompt (self : Generator) (context question : string)
    : result string :=
  if contains "{context}" (prompt_template self)
     && contains "{question}" (prompt_template self)
  then str_format (prompt_template self) context question
  else Ok ("<|system|>" +:+ LF
           +:+ "You are TechMentor AI, a helpful tech career advisor. Answer the user's question based on the following information:" +:+ LF
           +:+ context +:+ LF
           +:+ "</s>" +:+ LF
           +:+ LF
           +:+ "<|user|>" +:+ LF
           +:+ question +:+ LF
           +:+ "</s>" +:+ LF
           +:+ LF
           +:+ "<|assistant|>" +:+ LF).

(** The answer comes with the generator whose [llm] may have loaded its
    model on the way. *)
Definition generate_response (self : Generator) (question : string)
    : result (GenerationResponse * Generator) :=
  let '(context, sources, dynamic_content) :=
    assemble_context self question in
  bind (build_prompt self context question) (λ prompt,
    let '(response, llm') := generate (llm self) prompt in
    Ok ({| question := question;
           answer := response;
           sources := sources;
           used_dynamic_search := bool_decide (dynamic_content ≠ None) |},
        {| prompt_template := prompt_template self;
           dynamic_search_enabled := dynamic_search_enabled self;
           llm := llm';
           retriever := retriever self;
           dynamic_search := dynamic_search self |})).

(** The loop over [enumerate(unique_sources)] (lines 156-158). *)
Fixpoint sources_loop (i : nat) (formatted_response : string)
    (unique_sources : list string) : string :=
  match unique_sources with
  | [] => formatted_response
  | source :: unique_sources' =>
      let formatted_response :=
        if truthy source && bool_decide (source ≠ "Unknown")
        then formatted_response +:+ str (i + 1) +:+ ". " +:+ source +:+ LF
        else formatted_response in
      sources_loop (S i) formatted_response unique_sources'
  end.

Definition format_response_with_sources (response : GenerationResponse)
    : string :=
  let formatted_response := answer response in
  let formatted_response :=
    if used_dynamic_search response
    then formatted_response +:+ LF +:+ LF
         +:+ "[Note: This response includes information from a real-time web search]"
    else formatted_response in
  match sources response with
  | [] => formatted_response
  | _ =>
      let formatted_response :=
        formatted_response +:+ LF +:+ LF +:+ "Sources:" +:+ LF in
      let unique_sources := list_of_set (sources response) in
      sources_loop 0 formatted_response unique_sources
  end.

End with_builtins.

End generator.

(** ** The model on small inputs *)

Module Examples.
Import Py.

Example re_split_runs :
  re_split_sentences "One.  Two! Three ? Four, five."
  = ["One."; "Two!"; "Three ?"; "Four, five."].
Proof. reflexivity. Qed.

Example re_split_trailing : re_split_sentences "One. " = ["One."; ""].
Proof. reflexivity. Qed.

Example split_words : split "  ab  c d " = ["ab"; "c"; "d"].
Proof. reflexivity. Qed.

Example strip_both : strip "  ab  c d " = "ab  c d".
Proof. reflexivity. Qed.

Example slice_last_two : slice_from (-2) ["a"; "b"; "c"] = ["b"; "c"].
Proof. reflexivity. Qed.

Example slice_minus_zero : slice_from (-0) ["a"; "b"; "c"] = ["a"; "b"; "c"].
Proof. reflexivity. Qed.

Example chunks_with_overlap :
  chunker.text
    <$> chunker._chunk_text
          {| chunker.chunk_size := 8; chunker.chunk_overlap := 1;
             chunker.min_chunk_length := 1 |}
          "a b. c d. e f. g h." ∅
  = ["a b. c d."; "d. e f."; "f. g h."].
Proof. by vm_compute. Qed.

Example format_one_document :
  retriever.format_for_prompt
    [{| retriever.text := "Learn Git.";
        retriever.metadata := {[ "source" := "https://git-scm.com" ]};
        retriever.id := "result_0" |}]
  = "RELEVANT INFORMATION:

[Document 1]
Learn Git.
Source: https://git-scm.com

----------------------------------------

".
Proof. by vm_compute. Qed.

End Examples.

(** ** Facts about the built-ins *)

Module PyFacts.
Import Py.

Lemma string_app_nil_l (s : string) : "" +:+ s = s.
Proof. done. Qed.

Lemma string_app_cons (c : ascii) (s t : string) :
  String c s +:+ t = String c (s +:+ t).
Proof. done. Qed.

Lemma string_app_nil_r (s : string) : s +:+ "" = s.
Proof. induction s as [|c s IH]; [done | by rewrite string_app_cons, IH]. Qed.

Lemma string_app_assoc (s1 s2 s3 : string) : (s1 +:+ s2) +:+ s3 = s1 +:+ s2 +:+ s3.
Proof. induction s1 as [|c s1 IH]; [done | by rewrite !string_app_cons, IH]. Qed.

Lemma string_length_app (s1 s2 : string) :
  String.length (s1 +:+ s2) = String.length s1 + String.length s2.
Proof. induction s1 as [|c s1 IH]; [done | rewrite string_app_cons; simpl; by rewrite IH]. Qed.

Lemma len_app (s1 s2 : string) : len (s1 +:+ s2) = (len s1 + len s2)%Z.
Proof. unfold len. rewrite string_length_app. lia. Qed.

Lemma string_prefix_app (s1 s2 : string) : String.prefix s1 (s1 +:+ s2) = true.
Proof.
  induction s1 as [|c s1 IH]; [by destruct s2 |].
  rewrite string_app_cons. simpl. destruct (ascii_dec c c); [done | congruence].
Qed.

(** [s[:n]] is the prefix of [s] of length [n] when [s] is that long. *)
Lemma slice_to_prefix (n : nat) (s : string) :
  ∃ rest, s = slice_to n s +:+ rest.
Proof.
  unfold slice_to. revert n.
  induction s as [|c s IH]; intros [|n]; simpl.
  - by exists "".
  - by exists "".
  - by exists (String c s).
  - destruct (IH n) as [rest Hrest]. exists rest.
    by rewrite string_app_cons, <-Hrest.
Qed.

Lemma slice_to_length (n : nat) (s : string) :
  n ≤ String.length s → String.length (slice_to n s) = n.
Proof.
  unfold slice_to. revert n.
  induction s as [|c s IH]; intros [|n]; simpl; intros Hn; try done; try lia.
  rewrite IH; lia.
Qed.

End PyFacts.

(** ** Whitespace: [strip], [split] and [join] *)

Module StripFacts.
Import Py PyFacts.

(** A string that starts with a character other than whitespace. *)
Definition head_nonspace (s : string) : bool :=
  match s with
  | "" => false
  | String c _ => negb (is_space c)
  end.

(** A string that [strip] leaves alone and that is not empty: what a word
    of [split] is. *)
Definition tight (s : string) : Prop :=
  head_nonspace s = true ∧ rstrip s = s.

Lemma rstrip_cons (c : ascii) (s : string) :
  rstrip (String c s)
  = if bool_decide (rstrip s = "")
    then if is_space c then "" else String c ""
    else String c (rstrip s).
Proof. simpl. by destruct (rstrip s). Qed.

Lemma rstrip_app_nonempty (a b : string) :
  rstrip b ≠ "" → rstrip (a +:+ b) = a +:+ rstrip b.
Proof.
  intros Hb. induction a as [|c a IH]; [done |].
  rewrite !string_app_cons, rstrip_cons, IH.
  rewrite bool_decide_eq_false_2; [done |].
  destruct a; [done | discriminate].
Qed.

Lemma tight_nonempty (s : string) : tight s → s ≠ "".
Proof. by intros [H _] ->. Qed.

Lemma tight_single (c : ascii) : is_space c = false → tight (String c "").
Proof. intros Hc. split; simpl; by rewrite Hc. Qed.

Lemma tight_cons (c : ascii) (s : string) :
  is_space c = false → tight s → tight (String c s).
Proof.
  intros Hc [Hh Hr]. split; [simpl; by rewrite Hc |].
  rewrite rstrip_cons, Hr, bool_decide_eq_false_2; [done |].
  intros ->. done.
Qed.

Lemma split_tight (s : string) : Forall tight (split s).
Proof.
  induction s as [|c s IH]; [constructor |]. simpl.
  destruct (is_space c) eqn:Hc; [done |].
  destruct s as [|c' s']; [repeat constructor; by apply tight_single |].
  destruct (is_space c') eqn:Hc'.
  - constructor; [by apply tight_single | done].
  - destruct (split (String c' s')) as [|w ws];
      [repeat constructor; by apply tight_single |].
    apply Forall_cons in IH as [Hw Hws]. simpl.
    constructor; [by apply tight_cons | done].
Qed.

Lemma split_lstrip (s : string) : split (lstrip s) = split s.
Proof.
  induction s as [|c s IH]; [done |]. simpl lstrip.
  destruct (is_space c) eqn:Hc; [| done]. simpl. by rewrite Hc.
Qed.

Lemma rstrip_head (c : ascii) (s : string) :
  rstrip (String c s) = "" ∨ ∃ r, rstrip (String c s) = String c r.
Proof.
  rewrite rstrip_cons. case_bool_decide; [| eauto].
  destruct (is_space c); eauto.
Qed.

Lemma split_rstrip (s : string) : split (rstrip s) = split s.
Proof.
  induction s as [|c s IH]; [done |].
  rewrite rstrip_cons. case_bool_decide as Hr.
  - rewrite Hr in IH. simpl in IH.
    destruct (is_space c) eqn:Hc; simpl; rewrite Hc; [done |].
    destruct s as [|c' s']; [done |]. rewrite <-IH.
    by destruct (is_space c').
  - simpl. destruct (is_space c) eqn:Hc; [done |].
    destruct s as [|c' s']; [done |].
    destruct (rstrip_head c' s') as [?|[r Hr']]; [done |].
    rewrite Hr' in *. by rewrite IH.
Qed.

Lemma split_strip (s : string) : split (strip s) = split s.
Proof. unfold strip. by rewrite split_rstrip, split_lstrip. Qed.

Lemma lstrip_head_nonspace (s rest : string) :
  head_nonspace s = true → lstrip (s +:+ rest) = s +:+ rest.
Proof.
  destruct s as [|c s]; [done |]. simpl. intros Hc.
  rewrite string_app_cons. simpl. by destruct (is_space c).
Qed.

Lemma prefix_nil_l (s : string) : String.prefix "" s = true.
Proof. by destruct s. Qed.

Lemma prefix_cons (c : ascii) (s1 s2 : string) :
  String.prefix (String c s1) (String c s2) = String.prefix s1 s2.
Proof. simpl. destruct (ascii_dec c c); [done | congruence]. Qed.

Lemma prefix_rstrip_app (s rest : string) :
  rstrip s = s → String.prefix s (rstrip (s +:+ rest)) = true.
Proof.
  induction s as [|c s IH]; [intros _; apply prefix_nil_l |].
  rewrite string_app_cons, !rstrip_cons. case_bool_decide as Hs.
  - destruct (is_space c) eqn:Hc; [done |]. intros [= <-].
    rewrite string_app_nil_l. case_bool_decide.
    + by rewrite prefix_cons.
    + by rewrite prefix_cons, prefix_nil_l.
  - intros [= Hr]. specialize (IH Hr).
    case_bool_decide as Hx.
    + rewrite Hx in IH. destruct s; [by destruct Hs | done].
    + by rewrite prefix_cons.
Qed.

(** A joined run of words is again tight, unless there is no word. *)
Lemma join_tight (ws : list string) :
  Forall tight ws → ws ≠ [] → tight (join " " ws).
Proof.
  induction ws as [|w ws IH]; [done |].
  intros [Hw Hws]%Forall_cons _. destruct ws as [|w' ws]; [done |].
  specialize (IH Hws ltac:(done)).
  change (join " " (w :: w' :: ws)) with (w +:+ " " +:+ join " " (w' :: ws)).
  destruct Hw as [Hh Hr]. destruct IH as [Hh' Hr']. split.
  - destruct w; [done |]. by rewrite string_app_cons.
  - rewrite (rstrip_app_nonempty w).
    + f_equal. rewrite (rstrip_app_nonempty " "); [by rewrite Hr' |].
      rewrite Hr'. by destruct (join " " (w' :: ws)).
    + rewrite (rstrip_app_nonempty " "); [done |].
      rewrite Hr'. by destruct (join " " (w' :: ws)).
Qed.

(** A seed made of words of [split] survives [strip] at the front of what
    is appended to it. *)
Lemma prefix_strip_seed (ws : list string) (rest : string) :
  Forall tight ws →
  String.prefix (join " " ws) (strip (join " " ws +:+ rest)) = true.
Proof.
  intros Hws. destruct (decide (ws = [])) as [->|Hne];
    [apply prefix_nil_l |].
  destruct (join_tight ws Hws Hne) as [Hh Hr].
  unfold strip. rewrite lstrip_head_nonspace by done.
  by apply prefix_rstrip_app.
Qed.

End StripFacts.

(** ** The chunker *)

Module ChunkerSpec.
Import Py PyFacts StripFacts chunker.

(** The last [n] words of a list of words. *)
Definition last_words (n : nat) (ws : list string) : list string :=
  drop (length ws - n) ws.

(** [c2] was opened with the seed that the buffer of [c1] left behind. *)
Definition seeded_by (self : TextChunker) (c1 c2 : Chunk) : Prop :=
  ∃ buf rest,
    text c1 = strip buf
    ∧ text c2 = strip (overlap_text self buf +:+ " " +:+ rest).

(** Every two neighbours of a list are related. *)
Definition adjacent {A} (R : A → A → Prop) (l : list A) : Prop :=
  ∀ i x y, l !! i = Some x → l !! S i = Some y → R x y.

Lemma adjacent_snoc {A} (R : A → A → Prop) (l : list A) (z : A) :
  adjacent R l → (∀ x, last l = Some x → R x z) → adjacent R (l ++ [z]).
Proof.
  intros Hl Hz i x y Hx Hy.
  destruct (decide (S i < length l)) as [Hi|Hi].
  - rewrite lookup_app_l in Hx by lia. rewrite lookup_app_l in Hy by lia.
    eauto.
  - pose proof (lookup_lt_Some _ _ _ Hy) as Hlt.
    rewrite length_app in Hlt. simpl in Hlt.
    assert (S i = length l) as Hi' by lia.
    rewrite lookup_app_r in Hy by lia.
    rewrite Hi', Nat.sub_diag in Hy. injection Hy as <-.
    rewrite lookup_app_l in Hx by lia.
    apply Hz. rewrite last_lookup, <-Hi'. done.
Qed.

(** The loop invariant: neighbours among the chunks emitted so far are
    seeded, and the buffer starts with the seed of the last one. *)
Definition chunk_inv (self : TextChunker) (st : list Chunk * string) : Prop :=
  adjacent (seeded_by self) st.1
  ∧ ∀ c, last st.1 = Some c →
      ∃ buf rest,
        text c = strip buf
        ∧ st.2 = overlap_text self buf +:+ " " +:+ rest.

Lemma chunk_inv_init (self : TextChunker) : chunk_inv self ([], "").
Proof. split; [by intros i x y ? | by intros c ?]. Qed.

Lemma chunk_inv_emit (self : TextChunker) (md : gmap string string)
    (chunks : list Chunk) (cur : string) :
  chunk_inv self (chunks, cur) →
  adjacent (seeded_by self)
    (chunks ++ [{| text := strip cur; metadata := md |}]).
Proof.
  intros [Hadj Hlast]. apply adjacent_snoc; [done |].
  intros c Hc. destruct (Hlast c Hc) as (buf & rest & Hbuf & Hcur).
  exists buf, rest. simpl in *. by rewrite Hcur.
Qed.

Lemma chunk_inv_step (self : TextChunker) (md : gmap string string)
    (st : list Chunk * string) (sentence : string) :
  chunk_inv self st → chunk_inv self (chunk_step self md st sentence).
Proof.
  destruct st as [chunks cur]. intros Hinv. unfold chunk_step.
  destruct (_ && _)%Z.
  - split; [by apply chunk_inv_emit |].
    simpl. intros c Hc. rewrite last_snoc in Hc. injection Hc as <-.
    by exists cur, sentence.
  - destruct Hinv as [Hadj Hlast]. split; [done |].
    simpl in *. intros c Hc.
    destruct (Hlast c Hc) as (buf & rest & Hbuf & ->).
    exists buf. unfold truthy. rewrite bool_decide_eq_true_2.
    + exists (rest +:+ " " +:+ sentence). by rewrite !string_app_assoc.
    + by destruct (overlap_text self buf).
Qed.

Lemma chunk_inv_foldl (self : TextChunker) (md : gmap string string)
    (sentences : list string) (st : list Chunk * string) :
  chunk_inv self st → chunk_inv self (foldl (chunk_step self md) st sentences).
Proof.
  revert st. induction sentences as [|sentence sentences IH]; intros st Hst;
    [done |].
  simpl. by apply IH, chunk_inv_step.
Qed.

Lemma chunk_sentences_adjacent (self : TextChunker) (md : gmap string string)
    (sentences : list string) :
  adjacent (seeded_by self) (chunk_sentences self md sentences).
Proof.
  unfold chunk_sentences.
  pose proof (chunk_inv_foldl self md sentences _ (chunk_inv_init self)) as H.
  destruct (foldl _ _ _) as [chunks cur]. unfold flush.
  destruct (_ && _); [by apply chunk_inv_emit | apply H].
Qed.

(** The seed is made of words, so [strip] keeps it. *)
Lemma overlap_text_prefix (self : TextChunker) (buf rest : string) :
  String.prefix (overlap_text self buf)
    (strip (overlap_text self buf +:+ rest)) = true.
Proof.
  unfold overlap_text. destruct (_ >? _)%Z; [| apply prefix_nil_l].
  apply prefix_strip_seed. unfold slice_from.
  apply Forall_drop, split_tight.
Qed.

Lemma overlap_text_last_words (self : TextChunker) (buf : string) :
  (0 < chunk_overlap self < Z.of_nat (length (split buf)))%Z →
  overlap_text self buf
  = join " " (last_words (Z.to_nat (chunk_overlap self)) (split buf)).
Proof.
  intros Hk. unfold overlap_text, slice_from, last_words.
  rewrite (proj2 (Z.gtb_lt _ _)) by lia.
  rewrite (proj2 (Z.ltb_lt _ _)) by lia.
  do 2 f_equal. lia.
Qed.

(** A chunker with a chunk size of 3 characters and an overlap of one
    word, and one with a chunk size of 8. *)
Definition tiny_chunker : TextChunker :=
  {| chunk_size := 3; chunk_overlap := 1; min_chunk_length := 1 |}.

Definition small_chunker : TextChunker :=
  {| chunk_size := 8; chunk_overlap := 1; min_chunk_length := 1 |}.

(** C4, as the specification words it, fails: a first chunk of exactly
    [chunk_overlap] words leaves no seed. *)
Lemma overlap_seed_missing_at_equal_word_count :
  ∃ c1 c2,
    _chunk_text tiny_chunker "ab. cd." ∅ !! 0 = Some c1
    ∧ _chunk_text tiny_chunker "ab. cd." ∅ !! 1 = Some c2
    ∧ (chunk_overlap tiny_chunker ≤ Z.of_nat (length (split (text c1))))%Z
    ∧ String.prefix
        (join " " (last_words (Z.to_nat (chunk_overlap tiny_chunker))
                     (split (text c1))))
        (text c2) = false.
Proof.
  exists {| text := "ab."; metadata := ∅ |}, {| text := "cd."; metadata := ∅ |}.
  repeat split; by vm_compute.
Qed.

(** C4, amended. Of two consecutive chunks of a text, when the first has
    more than [chunk_overlap] words, the second begins with the last
    [chunk_overlap] words of the first, joined by single spaces (no words
    at all for an overlap that is not positive). *)
Theorem overlap_seed_of_next_chunk (self : TextChunker) (txt : string)
    (md : gmap string string) (i : nat) (c1 c2 : Chunk) :
  _chunk_text self txt md !! i = Some c1 →
  _chunk_text self txt md !! S i = Some c2 →
  (chunk_overlap self < Z.of_nat (length (split (text c1))))%Z →
  String.prefix
    (join " " (last_words (Z.to_nat (chunk_overlap self)) (split (text c1))))
    (text c2) = true.
Proof.
  intros H1 H2 Hk.
  destruct (chunk_sentences_adjacent self md (re_split_sentences txt)
              i c1 c2 H1 H2) as (buf & rest & Hc1 & Hc2).
  rewrite Hc1, split_strip in *.
  destruct (decide (chunk_overlap self ≤ 0)%Z) as [Hz|Hnz].
  - replace (Z.to_nat (chunk_overlap self)) with 0 by lia.
    unfold last_words. rewrite Nat.sub_0_r, drop_all. apply prefix_nil_l.
  - rewrite <-overlap_text_last_words by lia.
    rewrite Hc2. apply overlap_text_prefix.
Qed.

Lemma overlap_seed_of_next_chunk_witness :
  String.prefix "d." "d. e f." = true.
Proof.
  apply (overlap_seed_of_next_chunk small_chunker "a b. c d. e f. g h." ∅ 0
           {| text := "a b. c d."; metadata := ∅ |}
           {| text := "d. e f."; metadata := ∅ |});
    [reflexivity | reflexivity | by vm_compute].
Defined.




(** A sentence of 450 characters followed by one of 99. *)
Definition two_sentences : string :=
  repeat_char "a" 449 +:+ ". " +:+ repeat_char "b" 98 +:+ ".".

(** C3 fails on the code.  With the default configuration the second
    sentence is buffered behind the blank that follows an empty seed, the
    buffer has 100 characters, and the chunk that [strip] makes of it has
    99. *)
Theorem short_chunk_emitted :
  text <$> _chunk_text default_chunker two_sentences ∅
  = [repeat_char "a" 449 +:+ "."; repeat_char "b" 98 +:+ "."]
  ∧ ∃ c, c ∈ _chunk_text default_chunker two_sentences ∅
         ∧ len (text c) = 99%Z
         ∧ (len (text c) < min_chunk_length default_chunker)%Z.
Proof.
  split; [by vm_compute |].
  exists {| text := repeat_char "b" 98 +:+ "."; metadata := ∅ |}.
  split; [| split; by vm_compute].
  apply list_elem_of_lookup. exists 1. by vm_compute.
Qed.

End ChunkerSpec.

(** ** The retriever: filters *)

Module RetrieverSpec.
Import Py PyFacts retriever.

(** The filter test of the source: every filter key that the metadata
    holds has the filter's value there. *)
Definition agrees_on_present_keys (filters md : gmap string string) : Prop :=
  ∀ key value v, filters !! key = Some value → md !! key = Some v → v = value.

(** The filter test the specification words: every filter key is in the
    metadata, with the filter's value. *)
Definition has_every_filter_key (filters md : gmap string string) : Prop :=
  ∀ key value, filters !! key = Some value → md !! key = Some value.

Lemma matches_filters_spec (items : list (string * string))
    (md : gmap string string) :
  matches_filters items md = true
  ↔ ∀ key value v, (key, value) ∈ items → md !! key = Some v → v = value.
Proof.
  induction items as [|[k x] items IH]; simpl.
  - split; [| done]. intros _ key value v Hin. by apply elem_of_nil in Hin.
  - destruct (md !! k) as [v0|] eqn:Hk.
    + case_bool_decide as Hv.
      * split; [done |]. intros H. destruct Hv.
        apply (H k x v0); [left | done].
      * subst v0. rewrite IH. split.
        -- intros H key value v [[= -> ->]|Hin]%elem_of_cons Hmd;
             [congruence | eauto].
        -- intros H key value v Hin. apply H. by right.
    + rewrite IH. split.
      * intros H key value v [[= -> ->]|Hin]%elem_of_cons Hmd;
          [congruence | eauto].
      * intros H key value v Hin. apply H. by right.
Qed.

Lemma elem_of_apply_filters (items : list (string * string))
    (results : list RetrievedDocument) (doc : RetrievedDocument) :
  doc ∈ apply_filters items results
  ↔ doc ∈ results ∧ matches_filters items (metadata doc) = true.
Proof.
  induction results as [|d results IH]; simpl.
  - split; [by intros ?%elem_of_nil | by intros [?%elem_of_nil _]].
  - destruct (matches_filters items (metadata d)) eqn:Hd.
    + rewrite !elem_of_cons, IH. split.
      * intros [->|[? ?]]; [split; [by left | done] | split; [by right | done]].
      * intros [[->|?] ?]; [by left | by right].
    + rewrite elem_of_cons, IH. split.
      * intros [? ?]. split; [by right | done].
      * intros [[->|?] ?]; [congruence | done].
Qed.

Lemma apply_filters_sublist (items : list (string * string))
    (results : list RetrievedDocument) :
  apply_filters items results `sublist_of` results.
Proof.
  induction results as [|d results IH]; simpl; [done |].
  destruct (matches_filters items (metadata d)); by constructor.
Qed.

(** A retriever over a one-document index whose document carries no
    metadata at all. *)
Definition bare_doc : RetrievedDocument :=
  {| text := "Learn Python first."; metadata := ∅; id := "result_0" |}.

Definition bare_index : Retriever :=
  {| vector_db_search := λ _ _, [bare_doc]; top_k := 5 |}.

Definition web_only : gmap string string := {[ "source_type" := "web" ]}.

(** C2, as the specification words it, fails: a document whose metadata
    lacks the filter key is kept. *)
Lemma retrieve_keeps_doc_without_filter_key :
  web_only ≠ ∅
  ∧ bare_doc ∈ retrieve bare_index "python" (Some web_only)
  ∧ ¬ has_every_filter_key web_only (metadata bare_doc).
Proof.
  split; [| split].
  - intros H. apply (f_equal (λ m, m !! "source_type")) in H.
    vm_compute in H. discriminate.
  - vm_compute. left.
  - intros H. specialize (H "source_type" "web" eq_refl).
    vm_compute in H. discriminate.
Qed.

(** C2, amended. [retrieve] with filters keeps, in the index's order,
    exactly the documents that agree with the filters on every filter key
    their metadata holds; a filter key that the metadata lacks does not
    drop the document. *)
Theorem retrieve_filters_present_keys (self : Retriever) (query : string)
    (filters : gmap string string) (doc : RetrievedDocument) :
  (doc ∈ retrieve self query (Some filters)
   ↔ doc ∈ vector_db_search self query (top_k self)
     ∧ agrees_on_present_keys filters (metadata doc))
  ∧ retrieve self query (Some filters)
    `sublist_of` vector_db_search self query (top_k self).
Proof.
  unfold retrieve, agrees_on_present_keys.
  set (results := vector_db_search self query (top_k self)).
  case_bool_decide as Hf; simpl.
  - case_bool_decide as Hr; simpl.
    + split; [| apply apply_filters_sublist].
      rewrite elem_of_apply_filters, matches_filters_spec.
      setoid_rewrite elem_of_map_to_list. done.
    + rewrite Hr. split; [| done].
      split; [by intros ?%elem_of_nil | by intros [?%elem_of_nil _]].
  - subst filters. split; [| done].
    split; [| by intros [? _]].
    intros H. split; [done |]. intros key value v Hk.
    by rewrite lookup_empty in Hk.
Qed.

End RetrieverSpec.

(** ** The retriever: the prompt template *)

Module FormatSpec.
Import Py PyFacts retriever.

(** The [Source:] line of a document: present exactly when the metadata
    has a non-empty source. *)
Definition source_line (doc : RetrievedDocument) : string :=
  match metadata doc !! "source" with
  | Some source => if truthy source then "Source: " +:+ source +:+ LF else ""
  | None => ""
  end.

(** The block of the document that [enumerate] numbers [i]. *)
Definition document_block (i : nat) (doc : RetrievedDocument) : string :=
  "[Document " +:+ str (i + 1) +:+ "]" +:+ LF
  +:+ text doc +:+ LF
  +:+ source_line doc
  +:+ LF +:+ repeat_char "-" 40 +:+ LF +:+ LF.

Fixpoint document_blocks (i : nat) (docs : list RetrievedDocument) : string :=
  match docs with
  | [] => ""
  | doc :: docs' => document_block i doc +:+ document_blocks (S i) docs'
  end.

(** Occurrences of a marker [[Document n]], [n] a non-empty run of decimal
    digits, in a string. *)
Definition is_digit (c : ascii) : bool :=
  let n := nat_of_ascii c in (48 <=? n) && (n <=? 57).

Fixpoint all_digits (s : string) : bool :=
  match s with
  | "" => true
  | String c s' => is_digit c && all_digits s'
  end.

Fixpoint skip_digits (s : string) : string :=
  match s with
  | "" => ""
  | String c s' => if is_digit c then skip_digits s' else s
  end.

Fixpoint strip_prefix (p s : string) : option string :=
  match p with
  | "" => Some s
  | String a p' =>
      match s with
      | "" => None
      | String b s' => if bool_decide (a = b) then strip_prefix p' s' else None
      end
  end.

Definition marker_at (s : string) : bool :=
  match strip_prefix "[Document " s with
  | Some (String c r) =>
      is_digit c
      && match skip_digits r with
         | String "]" _ => true
         | _ => false
         end
  | _ => false
  end.

Fixpoint count_markers (s : string) : nat :=
  match s with
  | "" => 0
  | String _ s' => (if marker_at s then 1 else 0) + count_markers s'
  end.

(** Markers that a document brings along in its own text and source. *)
Definition embedded_markers (doc : RetrievedDocument) : nat :=
  count_markers (text doc)
  + match metadata doc !! "source" with
    | Some source => count_markers source
    | None => 0
    end.

Definition total_embedded_markers (docs : list RetrievedDocument) : nat :=
  foldr (λ doc acc, embedded_markers doc + acc) 0 docs.

(** *** The loop as a concatenation of blocks *)

Lemma format_loop_blocks (i : nat) (acc : string)
    (docs : list RetrievedDocument) :
  format_loop i acc docs = acc +:+ document_blocks i docs.
Proof.
  revert i acc. induction docs as [|doc docs IH]; intros i acc; simpl.
  - by rewrite string_app_nil_r.
  - rewrite IH. unfold document_block, source_line.
    destruct (metadata doc !! "source") as [source|];
      [destruct (truthy source) |]; by rewrite !string_app_assoc.
Qed.

(** *** Decimal numerals *)

Lemma pretty_N_char_digit (x : N) : is_digit (pretty_N_char x) = true.
Proof. unfold pretty_N_char. by repeat case_match. Qed.

Lemma pretty_N_go_digits (x : N) (s : string) :
  all_digits s = true → all_digits (pretty_N_go x s) = true.
Proof.
  revert s. induction (N.lt_wf_0 x) as [x _ IH]; intros s Hs.
  destruct (decide (x = 0%N)) as [->|Hx]; [by rewrite pretty_N_go_0 |].
  rewrite pretty_N_go_step by lia.
  apply IH; [apply N.div_lt; lia |].
  simpl. by rewrite pretty_N_char_digit, Hs.
Qed.

Lemma pretty_N_go_nonempty (x : N) (s : string) :
  s ≠ "" → pretty_N_go x s ≠ "".
Proof.
  revert s. induction (N.lt_wf_0 x) as [x _ IH]; intros s Hs.
  destruct (decide (x = 0%N)) as [->|Hx]; [by rewrite pretty_N_go_0 |].
  rewrite pretty_N_go_step by lia.
  apply IH; [apply N.div_lt; lia | done].
Qed.

Lemma str_digits (n : nat) : all_digits (str n) = true ∧ str n ≠ "".
Proof.
  unfold str, pretty, pretty_nat, pretty, pretty_N.
  case_decide as Hn; [done |]. split.
  - by apply pretty_N_go_digits.
  - rewrite pretty_N_go_step by lia. by apply pretty_N_go_nonempty.
Qed.

(** *** Counting markers *)

Fixpoint bracket_free (s : string) : bool :=
  match s with
  | "" => true
  | String c s' => bool_decide (c ≠ "["%char) && bracket_free s'
  end.

Lemma marker_at_cons_ne (c : ascii) (s : string) :
  c ≠ "["%char → marker_at (String c s) = false.
Proof.
  intros Hc. unfold marker_at. simpl.
  case_bool_decide; [congruence | done].
Qed.

Lemma count_markers_cons_ne (c : ascii) (s : string) :
  c ≠ "["%char → count_markers (String c s) = count_markers s.
Proof. intros Hc. simpl. by rewrite marker_at_cons_ne. Qed.

Lemma count_markers_bracket_free (s : string) :
  bracket_free s = true → count_markers s = 0.
Proof.
  induction s as [|c s IH]; [done |].
  intros [Hc Hs]%andb_prop. apply bool_decide_eq_true in Hc.
  rewrite count_markers_cons_ne by done. auto.
Qed.

Lemma all_digits_bracket_free (s : string) :
  all_digits s = true → bracket_free s = true.
Proof.
  induction s as [|c s IH]; [done |]. simpl.
  intros [Hc Hs]%andb_prop. rewrite IH by done.
  rewrite andb_true_r. apply bool_decide_eq_true. by intros ->.
Qed.

Lemma bracket_free_app (s1 s2 : string) :
  bracket_free (s1 +:+ s2) = bracket_free s1 && bracket_free s2.
Proof.
  induction s1 as [|c s1 IH]; [done |].
  rewrite string_app_cons. simpl. by rewrite IH, andb_assoc.
Qed.

Lemma skip_digits_app (d rest : string) :
  all_digits d = true → skip_digits (d +:+ rest) = skip_digits rest.
Proof.
  induction d as [|c d IH]; [done |]. rewrite string_app_cons. simpl.
  intros [-> Hd]%andb_prop. auto.
Qed.

Lemma strip_prefix_app_LF (p a b : string) :
  (∀ p1 p2, p ≠ p1 +:+ LF +:+ p2) →
  strip_prefix p (a +:+ LF +:+ b) = (λ r, r +:+ LF +:+ b) <$> strip_prefix p a.
Proof.
  revert a. induction p as [|x p IH]; intros a Hp; [done |].
  destruct a as [|y a].
  - simpl. case_bool_decide as Hx; [| done].
    destruct (Hp "" p). by rewrite Hx.
  - rewrite string_app_cons. simpl. case_bool_decide; [| done].
    apply IH. intros p1 p2 ->. by destruct (Hp (String x p1) p2).
Qed.

Lemma skip_digits_app_LF (r b : string) :
  skip_digits (r +:+ LF +:+ b) = skip_digits r +:+ LF +:+ b.
Proof.
  induction r as [|c r IH]; [done |]. rewrite string_app_cons. simpl.
  destruct (is_digit c); [done | by rewrite string_app_cons].
Qed.

Lemma marker_has_no_LF (p1 p2 : string) : "[Document " ≠ p1 +:+ LF +:+ p2.
Proof.
  do 11 (destruct p1 as [|? p1]; [discriminate |]; rewrite string_app_cons;
         intros [= ? H]; revert H).
Qed.

Lemma marker_at_app_LF (a b : string) :
  marker_at (a +:+ LF +:+ b) = marker_at a.
Proof.
  unfold marker_at.
  rewrite strip_prefix_app_LF by apply marker_has_no_LF.
  destruct (strip_prefix "[Document " a) as [[|c r]|]; simpl; [done | | done].
  f_equal. rewrite skip_digits_app_LF.
  by destruct (skip_digits r).
Qed.

(** A marker cannot run across a line feed: the count of a text is the sum
    of the counts on both sides of it. *)
Lemma count_markers_app_LF (a b : string) :
  count_markers (a +:+ LF +:+ b) = count_markers a + count_markers b.
Proof.
  induction a as [|c a IH].
  - rewrite string_app_nil_l. unfold LF. rewrite string_app_cons, string_app_nil_l.
    by rewrite count_markers_cons_ne.
  - rewrite string_app_cons. simpl count_markers at 1 2.
    rewrite IH, <-string_app_cons, marker_at_app_LF. lia.
Qed.

Lemma strip_prefix_app (p s : string) : strip_prefix p (p +:+ s) = Some s.
Proof.
  induction p as [|c p IH]; [done |]. rewrite string_app_cons. simpl.
  by rewrite bool_decide_eq_true_2.
Qed.

Lemma marker_at_marker_line (d rest : string) :
  all_digits d = true → d ≠ "" →
  marker_at ("[Document " +:+ d +:+ "]" +:+ rest) = true.
Proof.
  intros Hd Hne. unfold marker_at. rewrite strip_prefix_app.
  destruct d as [|c d]; [done |]. apply andb_prop in Hd as [Hc Hd].
  rewrite string_app_cons, Hc, skip_digits_app by done. done.
Qed.

Lemma count_markers_marker_line (n : nat) :
  count_markers ("[Document " +:+ str n +:+ "]") = 1.
Proof.
  destruct (str_digits n) as [Hd Hne].
  change ("[Document " +:+ str n +:+ "]")
    with (String "[" ("Document " +:+ str n +:+ "]")).
  change (count_markers (String "[" ("Document " +:+ str n +:+ "]")))
    with ((if marker_at ("[Document " +:+ str n +:+ "]" +:+ "") then 1 else 0)
          + count_markers ("Document " +:+ str n +:+ "]")).
  rewrite marker_at_marker_line by done.
  rewrite count_markers_bracket_free; [done |].
  rewrite !bracket_free_app, (all_digits_bracket_free (str n)) by done.
  done.
Qed.

Lemma regroup_line (a b c rest : string) :
  a +:+ b +:+ c +:+ rest = (a +:+ b +:+ c) +:+ rest.
Proof. by rewrite !string_app_assoc. Qed.

Lemma count_markers_LF (b : string) :
  count_markers (LF +:+ b) = count_markers b.
Proof. by rewrite <-(string_app_nil_l (LF +:+ b)), count_markers_app_LF. Qed.

Lemma count_markers_source_line (doc : RetrievedDocument) (rest : string) :
  count_markers (source_line doc +:+ rest)
  = match metadata doc !! "source" with
    | Some source => count_markers source
    | None => 0
    end + count_markers rest.
Proof.
  unfold source_line, truthy.
  destruct (metadata doc !! "source") as [source|]; [| done].
  case_bool_decide as Hs; [| by subst source].
  rewrite !string_app_assoc.
  change ("Source: " +:+ source +:+ LF +:+ rest)
    with (String "S" (String "o" (String "u" (String "r" (String "c"
           (String "e" (String ":" (String " " (source +:+ LF +:+ rest))))))))).
  rewrite !count_markers_cons_ne by done.
  apply count_markers_app_LF.
Qed.

Lemma count_markers_document_block (i : nat) (doc : RetrievedDocument)
    (rest : string) :
  count_markers (document_block i doc +:+ rest)
  = 1 + embedded_markers doc + count_markers rest.
Proof.
  unfold document_block, embedded_markers. rewrite !string_app_assoc.
  rewrite (regroup_line "[Document " (str (i + 1)) "]").
  rewrite count_markers_app_LF, count_markers_marker_line.
  rewrite count_markers_app_LF, count_markers_source_line.
  rewrite count_markers_LF, count_markers_app_LF, count_markers_LF.
  rewrite (count_markers_bracket_free (repeat_char "-" 40)) by done.
  lia.
Qed.

Lemma count_markers_document_blocks (i : nat) (docs : list RetrievedDocument) :
  count_markers (document_blocks i docs)
  = length docs + total_embedded_markers docs.
Proof.
  revert i. induction docs as [|doc docs IH]; intros i; [done |].
  change (document_blocks i (doc :: docs))
    with (document_block i doc +:+ document_blocks (S i) docs).
  rewrite count_markers_document_block, IH. simpl. lia.
Qed.

(** A document whose text is itself a marker. *)
Definition marker_doc : RetrievedDocument :=
  {| text := "[Document 1]"; metadata := ∅; id := "result_0" |}.

(** C6, as the specification words it, fails: the rendering of one
    document may hold two markers. *)
Lemma format_for_prompt_two_markers_for_one_doc :
  count_markers (format_for_prompt [marker_doc]) = 2
  ∧ count_markers (format_for_prompt [marker_doc]) ≠ length [marker_doc].
Proof. split; [by vm_compute | by vm_compute]. Qed.

(** C6, amended. [format_for_prompt] renders the empty sequence as the
    sentinel, and a non-empty sequence as the header followed by one block
    per document, numbered from 1 in order, whose [Source:] line is there
    exactly when the metadata has a non-empty source; the markers in the
    rendering are one per document plus those that the documents' own texts
    and sources contain. *)
Theorem format_for_prompt_spec :
  format_for_prompt [] = "No relevant information found."
  ∧ ∀ doc docs,
      format_for_prompt (doc :: docs)
      = "RELEVANT INFORMATION:" +:+ LF +:+ LF +:+ document_blocks 0 (doc :: docs)
      ∧ count_markers (format_for_prompt (doc :: docs))
        = length (doc :: docs) + total_embedded_markers (doc :: docs).
Proof.
  split; [done |]. intros doc docs.
  assert (format_for_prompt (doc :: docs)
          = "RELEVANT INFORMATION:" +:+ LF +:+ LF
            +:+ document_blocks 0 (doc :: docs)) as ->.
  { unfold format_for_prompt. by rewrite format_loop_blocks, !string_app_assoc. }
  split; [done |].
  rewrite count_markers_app_LF, count_markers_LF.
  by rewrite count_markers_document_blocks.
Qed.

End FormatSpec.

(** ** The relevance gate and the dynamic search *)

Module GeneratorSpec.
Import Py PyFacts FormatSpec generator.

(** The sum of the character lengths of the retrieved texts. *)
Definition total_text_length (docs : list RetrievedDocument) : Z :=
  foldr (λ doc acc, (len (text doc) + acc)%Z) 0%Z docs.

Lemma foldl_total_text_length (docs : list RetrievedDocument) (acc : Z) :
  foldl (λ acc doc, (acc + len (text doc))%Z) acc docs
  = (acc + total_text_length docs)%Z.
Proof.
  revert acc. induction docs as [|doc docs IH]; intros acc; simpl; [lia |].
  rewrite IH. lia.
Qed.

(** C5. The relevance gate answers true exactly when at least two
    documents were retrieved and their texts add up to at least 500
    characters; it depends on nothing but the documents (neither on the
    question nor on the generator), and it is false on the empty sequence
    and on every single document. *)
Theorem is_content_relevant_spec (self : Generator) (question : string)
    (docs : list RetrievedDocument) :
  (is_content_relevant self question docs = true
   ↔ 2 ≤ length docs ∧ (500 ≤ total_text_length docs)%Z)
  ∧ (∀ self' question',
       is_content_relevant self' question' docs
       = is_content_relevant self question docs)
  ∧ is_content_relevant self question [] = false
  ∧ (∀ doc, is_content_relevant self question [doc] = false).
Proof.
  split; [| split; [| split]]; try done.
  unfold is_content_relevant.
  destruct docs as [|d1 [|d2 docs]].
  - split; [done | intros [? _]; simpl in *; lia].
  - split; [done | intros [? _]; simpl in *; lia].
  - rewrite foldl_total_text_length, Z.add_0_l.
    destruct (Z.ltb_spec (Z.of_nat (length (d1 :: d2 :: docs))) 2) as [Hn|Hn];
      [simpl in Hn; lia |].
    destruct (Z.ltb_spec (total_text_length (d1 :: d2 :: docs)) 500);
      (split; [intros ? | intros [_ ?]]); try done; try lia.
Qed.

(** C8. When the search returned results, [perform_dynamic_search] hands
    back the combined content unchanged if it has at most 4000 characters,
    and otherwise its first 4000 characters followed by one truncation
    marker. *)
Theorem perform_dynamic_search_truncation (self : Generator)
    (question : string) :
  search (dynamic_search self) question 3 ≠ [] →
  let combined :=
    combined_content self (search (dynamic_search self) question 3) in
  ((len combined ≤ 4000)%Z → perform_dynamic_search self question = combined)
  ∧ ((4000 < len combined)%Z →
       perform_dynamic_search self question
       = slice_to 4000 combined +:+ "... [content truncated]"
       ∧ String.length (slice_to 4000 combined) = 4000
       ∧ ∃ rest, combined = slice_to 4000 combined +:+ rest).
Proof.
  intros Hres combined. unfold perform_dynamic_search.
  destruct (search (dynamic_search self) question 3) as [|r rs] eqn:E;
    [done |].
  fold combined. rewrite Z.gtb_ltb.
  assert (Z.of_nat 4000 = 4000%Z) as -> by lia.
  destruct (Z.ltb_spec 4000 (len combined)); (split; intros Hlen); try lia.
  - split; [done |]. split; [| apply slice_to_prefix].
    apply slice_to_length. unfold len in Hlen. lia.
  - done.
Qed.

(** A generator whose only hit is a page of 5000 characters. *)
Definition long_page : DynamicSearchEngine :=
  {| search := λ _ _,
       [{| title := "Guide"; url := Some "http://guide.test";
           snippet := "A long guide" |}];
     extract_content := λ _, repeat_char "a" 5000 |}.

Definition long_page_generator : Generator :=
  {| prompt_template := "";
     dynamic_search_enabled := true;
     llm := {| model := None; model_file := None |};
     retriever := {| vector_db_search := λ _ _, []; top_k := 5 |};
     dynamic_search := long_page |}.

Lemma perform_dynamic_search_truncation_witness :
  search (dynamic_search long_page_generator) "guide" 3 ≠ []
  ∧ (4000 < len (combined_content long_page_generator
                   (search (dynamic_search long_page_generator) "guide" 3)))%Z
  ∧ String.length (perform_dynamic_search long_page_generator "guide") = 4023.
Proof.
  assert (search (dynamic_search long_page_generator) "guide" 3 ≠ [])
    as Hres by discriminate.
  assert (4000 < len (combined_content long_page_generator
            (search (dynamic_search long_page_generator) "guide" 3)))%Z
    as Hlen by (by vm_compute).
  split; [done |]. split; [done |].
  destruct (perform_dynamic_search_truncation long_page_generator "guide" Hres)
    as [_ Hlong].
  destruct (Hlong Hlen) as (-> & Hfirst & _).
  rewrite string_length_app, Hfirst. reflexivity.
Defined.

(** *** The merge of local and dynamic content *)

Lemma format_for_prompt_sentinel (docs : list RetrievedDocument) :
  format_for_prompt docs = "No relevant information found." ↔ docs = [].
Proof.
  split; [| by intros ->].
  destruct docs as [|doc docs]; [done |].
  unfold format_for_prompt. rewrite format_loop_blocks. discriminate.
Qed.

(** The source list gathered from the local documents (line 91). *)
Definition gathered_sources (docs : list RetrievedDocument) : list string :=
  (λ doc, default "Unknown" (metadata doc !! "source")) <$> docs.

(** The dynamic branch was taken and its content passed the test of
    line 98. *)
Definition merged (self : Generator) (question : string) : bool :=
  dynamic_search_enabled self
  && negb (is_content_relevant self question
             (retrieve (retriever self) question None))
  && truthy (perform_dynamic_search self question)
  && bool_decide (perform_dynamic_search self question
                  ≠ "No relevant information found from web search.").

(** C7. When the dynamic branch produced usable content, the context is
    the dynamic content alone if the local context is the sentinel (which
    is when nothing was retrieved), and otherwise the local context, the
    heading and the dynamic content; the tag is appended to the sources
    exactly then, and these are the sources of the response. *)
Theorem assemble_context_merge (self : Generator) (question : string) :
  let docs := retrieve (retriever self) question None in
  let local := format_for_prompt docs in
  let dynamic_content := perform_dynamic_search self question in
  let context := (assemble_context self question).1.1 in
  let sources := (assemble_context self question).1.2 in
  context
  = (if merged self question
     then if bool_decide (local = "No relevant information found.")
          then dynamic_content
          else local +:+ LF +:+ LF +:+ "ADDITIONAL WEB SEARCH RESULTS:" +:+ LF
               +:+ dynamic_content
     else local)
  ∧ (local = "No relevant information found." ↔ docs = [])
  ∧ sources
    = (if merged self question
       then gathered_sources docs ++ ["Dynamic Web Search"]
       else gathered_sources docs)
  ∧ (sources = gathered_sources docs ++ ["Dynamic Web Search"]
     ↔ merged self question = true)
  ∧ ∀ str_format,
      match generate_response str_format self question with
      | Ok (resp, _) => generator.sources resp = sources
      | Raise _ => True
      end.
Proof.
  intros docs local dynamic_content context sources.
  assert (context
          = (if merged self question
             then if bool_decide (local = "No relevant information found.")
                  then dynamic_content
                  else local +:+ LF +:+ LF +:+ "ADDITIONAL WEB SEARCH RESULTS:"
                       +:+ LF +:+ dynamic_content
             else local)
          ∧ sources
            = (if merged self question
               then gathered_sources docs ++ ["Dynamic Web Search"]
               else gathered_sources docs)) as [Hc Hs].
  { subst context sources. unfold assemble_context, merged.
    fold docs. fold dynamic_content. fold local.
    destruct (dynamic_search_enabled self); [| done].
    destruct (is_content_relevant self question docs); [done |].
    destruct (truthy dynamic_content); [| done].
    by destruct (bool_decide (dynamic_content
      ≠ "No relevant information found from web search.")). }
  split; [done |]. split; [apply format_for_prompt_sentinel |].
  split; [done |]. split.
  - rewrite Hs. destruct (merged self question); [done |].
    split; [| done]. intros H. apply (f_equal length) in H.
    rewrite length_app in H. simpl in H. lia.
  - intros str_format. unfold generate_response.
    fold sources. destruct (assemble_context self question) as [[c s] d] eqn:E.
    subst sources. simpl.
    destruct (build_prompt str_format self c question); simpl; [| done].
    by destruct (generate (llm self) a).
Qed.

(** *** Failures of the language model *)

(** The model that [generate] ends up calling: the loaded one, or the one
    that a lazy [load_model] brings in. *)
Definition active_model (l : LocalLLM) : option Model :=
  match model l with
  | Some m => Some m
  | None =>
      match model_file l with
      | Some (Ok m) => Some m
      | _ => None
      end
  end.

Lemma generate_raising_model (l : LocalLLM) (m : Model) (prompt msg : string) :
  active_model l = Some m → m prompt = Raise msg →
  (generate l prompt).1 = "Error during text generation: " +:+ msg.
Proof.
  unfold active_model, generate, load_model, call_model.
  destruct (model l) as [m0|] eqn:Hm.
  - intros [= ->] Hraise. simpl. by rewrite Hraise.
  - destruct (model_file l) as [[m0|e]|]; try done.
    intros [= ->] Hraise. simpl. by rewrite Hraise.
Qed.

(** C9. When the prompt is built and the model raises on it, the response
    is still an envelope: the answer is the error text made from the
    exception, the sources are those gathered before the call, and nothing
    is raised. *)
Theorem generate_response_model_error
    (str_format : string → string → string → result string)
    (self : Generator) (question prompt msg : string) (m : Model) :
  build_prompt str_format self (assemble_context self question).1.1 question
  = Ok prompt →
  active_model (llm self) = Some m →
  m prompt = Raise msg →
  ∃ self',
    generate_response str_format self question
    = Ok ({| question := question;
             answer := "Error during text generation: " +:+ msg;
             sources := (assemble_context self question).1.2;
             used_dynamic_search :=
               bool_decide ((assemble_context self question).2 ≠ None) |},
          self').
Proof.
  intros Hprompt Hactive Hraise. unfold generate_response.
  destruct (assemble_context self question) as [[context srcs] dc].
  simpl in *. rewrite Hprompt. simpl.
  pose proof (generate_raising_model _ _ _ _ Hactive Hraise) as Hgen.
  destruct (generate (llm self) prompt) as [response llm'].
  simpl in Hgen. subst response. eauto.
Qed.

(** A generator over an empty index, with no web search, whose model runs
    out of memory on every prompt. *)
Definition empty_index : Retriever :=
  {| vector_db_search := λ _ _, []; top_k := 5 |}.

Definition offline : DynamicSearchEngine :=
  {| search := λ _ _, [];
     extract_content := λ _, "Error extracting content: unreachable" |}.

Definition out_of_memory : Model := λ _, Raise "out of memory".

Definition crashing_generator : Generator :=
  {| prompt_template := "";
     dynamic_search_enabled := false;
     llm := {| model := Some out_of_memory; model_file := None |};
     retriever := empty_index;
     dynamic_search := offline |}.

Lemma generate_response_model_error_witness :
  ∃ self',
    generate_response (λ _ _ _, Raise "KeyError") crashing_generator
      "What is Rust?"
    = Ok ({| question := "What is Rust?";
             answer := "Error during text generation: out of memory";
             sources := [];
             used_dynamic_search := false |},
          self').
Proof.
  eapply (generate_response_model_error _ crashing_generator "What is Rust?"
            _ "out of memory" out_of_memory); reflexivity.
Defined.

(** *** The flag of the response *)

(** What the flag records: the dynamic branch was entered. *)
Lemma used_dynamic_search_is_attempted
    (str_format : string → string → string → result string)
    (self : Generator) (question : string) :
  match generate_response str_format self question with
  | Ok (resp, _) =>
      used_dynamic_search resp
      = dynamic_search_enabled self
        && negb (is_content_relevant self question
                   (retrieve (retriever self) question None))
  | Raise _ => True
  end.
Proof.
  unfold generate_response, assemble_context.
  destruct (dynamic_search_enabled self),
    (is_content_relevant self question _); simpl.
  2: destruct (_ && _); simpl.
  all: destruct (build_prompt _ _ _ _); simpl; [| done].
  all: by destruct (generate (llm self) a).
Qed.

(** A generator whose web search finds nothing, and one whose only hit
    cannot be fetched. *)
Definition canned : Model := λ _, Ok "Start with Python.".

Definition searching_generator (engine : DynamicSearchEngine) : Generator :=
  {| prompt_template := "";
     dynamic_search_enabled := true;
     llm := {| model := Some canned; model_file := None |};
     retriever := empty_index;
     dynamic_search := engine |}.

Definition unreachable_hit : DynamicSearchEngine :=
  {| search := λ _ _,
       [{| title := "Roadmap";
           url := Some "http://roadmap.test";
           snippet := "A roadmap" |}];
     extract_content := λ _, "Error extracting content: timed out" |}.

(** C1 fails on the code.  With the search finding nothing, the context is
    the local text and no web source is listed, yet the flag is set and
    the formatted answer claims web content; with every extraction failing,
    the error text of the extraction is merged as if it were content. *)
Theorem used_dynamic_search_without_content
    (str_format : string → string → string → result string)
    (list_of_set : list string → list string) :
  let g := searching_generator offline in
  let resp := {| question := "How do I start?";
                 answer := "Start with Python.";
                 sources := [];
                 used_dynamic_search := true |} in
  (assemble_context g "How do I start?").1.1 = "No relevant information found."
  ∧ merged g "How do I start?" = false
  ∧ generate_response str_format g "How do I start?" = Ok (resp, g)
  ∧ format_response_with_sources list_of_set resp
    = "Start with Python." +:+ LF +:+ LF
      +:+ "[Note: This response includes information from a real-time web search]"
  ∧ let g' := searching_generator unreachable_hit in
    generate_response str_format g' "How do I start?"
    = Ok ({| question := "How do I start?";
             answer := "Start with Python.";
             sources := ["Dynamic Web Search"];
             used_dynamic_search := true |}, g')
    ∧ (assemble_context g' "How do I start?").1.1
      = "[Source 1: http://roadmap.test]" +:+ LF
        +:+ "Error extracting content: timed out" +:+ LF.
Proof. repeat split; by vm_compute. Qed.

(** *** The formatted source list *)

(** An entry is printed when it is non-empty and not ["Unknown"]. *)
Definition printed (source : string) : bool :=
  truthy source && bool_decide (source ≠ "Unknown").

(** The lines of the source list: the entry at index [i] of the listing
    carries the number [i + 1], whether or not earlier entries were
    printed. *)
Fixpoint source_lines (i : nat) (unique_sources : list string) : string :=
  match unique_sources with
  | [] => ""
  | source :: unique_sources' =>
      (if printed source then str (i + 1) +:+ ". " +:+ source +:+ LF else "")
      +:+ source_lines (S i) unique_sources'
  end.

(** What Python promises of [list(set(l))]: the elements of [l], each once,
    in an order of its own choosing. *)
Definition set_listing (list_of_set : list string → list string) : Prop :=
  ∀ l, NoDup (list_of_set l) ∧ ∀ x, x ∈ list_of_set l ↔ x ∈ l.

Lemma sources_loop_lines (i : nat) (acc : string) (l : list string) :
  sources_loop i acc l = acc +:+ source_lines i l.
Proof.
  revert i acc. induction l as [|source l IH]; intros i acc; simpl.
  - by rewrite string_app_nil_r.
  - rewrite IH. unfold printed.
    destruct (truthy source && bool_decide (source ≠ "Unknown"));
      by rewrite ?string_app_assoc.
Qed.

Lemma set_listing_remove_dups : set_listing remove_dups.
Proof.
  intros l. split; [apply NoDup_remove_dups |].
  intros x. apply elem_of_remove_dups.
Qed.

Lemma set_listing_reverse_remove_dups :
  set_listing (λ l, reverse (remove_dups l)).
Proof.
  intros l. split; [by rewrite reverse_Permutation; apply NoDup_remove_dups |].
  intros x. by rewrite elem_of_reverse, elem_of_remove_dups.
Qed.

(** The listing that puts the entry [u] first. *)
Definition listed_first (u : string) (l : list string) : list string :=
  if decide (u ∈ l) then u :: filter (λ x, x ≠ u) (remove_dups l)
  else remove_dups l.

Lemma set_listing_listed_first (u : string) : set_listing (listed_first u).
Proof.
  intros l. unfold listed_first. destruct (decide (u ∈ l)) as [Hu|Hu];
    [| apply set_listing_remove_dups].
  split.
  - apply NoDup_cons. split; [| apply NoDup_filter, NoDup_remove_dups].
    rewrite list_elem_of_filter. by intros [? _].
  - intros x. rewrite elem_of_cons, list_elem_of_filter, elem_of_remove_dups.
    split; [by intros [->|[_ ?]] |].
    intros Hx. destruct (decide (x = u)); [by left | by right].
Qed.

(** C10. The formatted response is the answer, the note when the flag is
    set, and for a non-empty source list the heading followed by the lines
    of the listing of the set of sources: an entry is printed only when it
    is non-empty and not ["Unknown"], and it carries its index in the
    listing plus one.  So whenever the sources hold an entry that is not
    printed, a listing that puts it first makes the numbering start after
    1, as for ["Unknown"] and ["docs.python.org"]; and a listing may order
    the sources otherwise than they were gathered. *)
Theorem format_response_with_sources_numbering :
  (∀ list_of_set resp,
     format_response_with_sources list_of_set resp
     = answer resp
       +:+ (if used_dynamic_search resp
            then LF +:+ LF
                 +:+ "[Note: This response includes information from a real-time web search]"
            else "")
       +:+ (match sources resp with
            | [] => ""
            | _ => LF +:+ LF +:+ "Sources:" +:+ LF
                   +:+ source_lines 0 (list_of_set (sources resp))
            end))
  ∧ (∀ resp u,
       u ∈ sources resp → printed u = false →
       ∃ list_of_set rest,
         set_listing list_of_set
         ∧ list_of_set (sources resp) = u :: rest
         ∧ source_lines 0 (list_of_set (sources resp)) = source_lines 1 rest)
  ∧ (∃ list_of_set,
       set_listing list_of_set
       ∧ format_response_with_sources list_of_set
           {| question := "q"; answer := "A";
              sources := ["Unknown"; "docs.python.org"];
              used_dynamic_search := false |}
         = "A" +:+ LF +:+ LF +:+ "Sources:" +:+ LF
           +:+ "2. docs.python.org" +:+ LF)
  ∧ (∃ list_of_set,
       set_listing list_of_set
       ∧ format_response_with_sources list_of_set
           {| question := "q"; answer := "A";
              sources := ["a.org"; "b.org"];
              used_dynamic_search := false |}
         = "A" +:+ LF +:+ LF +:+ "Sources:" +:+ LF
           +:+ "1. b.org" +:+ LF +:+ "2. a.org" +:+ LF).
Proof.
  split; [| split; [| split]].
  - intros list_of_set [q a srcs used]. unfold format_response_with_sources.
    simpl. destruct srcs as [|s0 srcs].
    + destruct used; by rewrite ?string_app_nil_r.
    + rewrite sources_loop_lines.
      destruct used; by rewrite ?string_app_assoc.
  - intros resp u Hu Hskip.
    exists (listed_first u), (filter (λ x, x ≠ u) (remove_dups (sources resp))).
    split; [apply set_listing_listed_first |].
    unfold listed_first. rewrite decide_True by done. split; [done |].
    simpl. by rewrite Hskip.
  - exists remove_dups. split; [apply set_listing_remove_dups | by vm_compute].
  - exists (λ l, reverse (remove_dups l)).
    split; [apply set_listing_reverse_remove_dups | by vm_compute].
Qed.

End GeneratorSpec.

(** ** More on the chunker *)

Module ChunkerExtra.
Import Py PyFacts StripFacts chunker ChunkerSpec.

(** *** Emitted texts are stripped *)

Lemma lstrip_cases (s : string) :
  lstrip s = "" ∨ head_nonspace (lstrip s) = true.
Proof.
  induction s as [|c s IH]; [by left |]. simpl.
  destruct (is_space c) eqn:Hc; [done |]. right. simpl. by rewrite Hc.
Qed.

Lemma rstrip_idempotent (s : string) : rstrip (rstrip s) = rstrip s.
Proof.
  induction s as [|c s IH]; [done |].
  rewrite rstrip_cons. case_bool_decide as Hs.
  - destruct (is_space c) eqn:Hc; [done |]. simpl. by rewrite Hc.
  - rewrite rstrip_cons, IH. by rewrite bool_decide_eq_false_2.
Qed.

Lemma rstrip_head_nonspace (s : string) :
  head_nonspace s = true → head_nonspace (rstrip s) = true.
Proof.
  destruct s as [|c s]; [done |]. simpl head_nonspace at 1. intros Hc.
  rewrite rstrip_cons. case_bool_decide; [| done].
  destruct (is_space c) eqn:E; [done |]. simpl. by rewrite E.
Qed.

Lemma lstrip_fixed (s : string) : head_nonspace s = true → lstrip s = s.
Proof.
  destruct s as [|c s]; [done |]. simpl. by destruct (is_space c).
Qed.

Lemma strip_idempotent (s : string) : strip (strip s) = strip s.
Proof.
  unfold strip. destruct (lstrip_cases s) as [->|Hh]; [done |].
  rewrite (lstrip_fixed (rstrip (lstrip s))) by by apply rstrip_head_nonspace.
  apply rstrip_idempotent.
Qed.

Lemma chunk_text_stripped_all (self : TextChunker) (txt : string)
    (md : gmap string string) :
  Forall (λ c, strip (text c) = text c ∧ metadata c = md)
    (_chunk_text self txt md).
Proof.
  unfold _chunk_text, chunk_sentences.
  set (P := λ c : Chunk, strip (text c) = text c ∧ metadata c = md).
  assert (∀ cur, P {| text := strip cur; metadata := md |}) as Hnew.
  { intros cur. split; [apply strip_idempotent | done]. }
  assert (∀ sentences st, Forall P st.1 →
            Forall P (foldl (chunk_step self md) st sentences).1) as Hfold.
  { induction sentences as [|sentence sentences IH]; intros st Hst; [done |].
    simpl. apply IH. destruct st as [chunks cur]. unfold chunk_step.
    destruct (_ && _)%Z; [| done]. simpl.
    apply Forall_app. split; [done |]. apply Forall_singleton, Hnew. }
  specialize (Hfold (re_split_sentences txt) ([], "") ltac:(constructor)).
  destruct (foldl _ _ _) as [chunks cur]. unfold flush. simpl in Hfold.
  destruct (_ && _); [| done].
  apply Forall_app. split; [done |]. apply Forall_singleton, Hnew.
Qed.

(** X2. No emitted chunk starts or ends with whitespace, and every chunk
    carries the metadata that was passed in. *)
Theorem chunk_text_stripped (self : TextChunker) (txt : string)
    (md : gmap string string) (c : Chunk) :
  c ∈ _chunk_text self txt md → strip (text c) = text c ∧ metadata c = md.
Proof.
  intros Hc. pose proof (chunk_text_stripped_all self txt md) as Hall.
  rewrite Forall_forall in Hall. by apply Hall.
Qed.

Lemma chunk_text_stripped_witness :
  strip "d. e f." = "d. e f." ∧ (∅ : gmap string string) = ∅.
Proof.
  apply (chunk_text_stripped ChunkerSpec.small_chunker "a b. c d. e f. g h." ∅
           {| text := "d. e f."; metadata := ∅ |}).
  apply list_elem_of_lookup. exists 1. by vm_compute.
Defined.



(** *** Texts below the minimum length *)

(** The characters that the sentences take when joined by single blanks,
    plus one. *)
Definition joined_weight (sentences : list string) : nat :=
  foldr (λ s acc, String.length s + 1 + acc) 0 sentences.

(** The room that the buffer takes in the same count. *)
Definition buffer_weight (cur : string) : nat :=
  match cur with
  | "" => 0
  | _ => String.length cur + 1
  end.

Lemma re_split_go_nonempty (st : scan) (s : string) : re_split_go st s ≠ [].
Proof.
  revert st. induction s as [|c s IH]; intros st; [done |]. simpl.
  destruct (is_space c).
  - destruct st as [[|]|]; [done | | apply IH].
    specialize (IH (InText false)). by destruct (re_split_go _ s).
  - specialize (IH (InText (is_terminal c))). by destruct (re_split_go _ s).
Qed.

Lemma joined_weight_cons_head (c : ascii) (ps : list string) :
  ps ≠ [] → joined_weight (cons_head c ps) = S (joined_weight ps).
Proof. destruct ps as [|p ps]; [done |]. intros _. simpl. lia. Qed.

Lemma joined_weight_re_split_go (st : scan) (s : string) :
  joined_weight (re_split_go st s) ≤ String.length s + 1.
Proof.
  revert st. induction s as [|c s IH]; intros st; [simpl; lia |]. simpl.
  destruct (is_space c).
  - destruct st as [[|]|].
    + specialize (IH InSep). simpl. lia.
    + rewrite joined_weight_cons_head by apply re_split_go_nonempty.
      specialize (IH (InText false)). lia.
    + specialize (IH InSep). lia.
  - rewrite joined_weight_cons_head by apply re_split_go_nonempty.
    specialize (IH (InText (is_terminal c))). lia.
Qed.

Lemma buffer_weight_bound (cur : string) :
  cur ≠ "" → String.length cur < buffer_weight cur.
Proof. destruct cur; [done |]. intros _. simpl. lia. Qed.

Lemma short_text_foldl (self : TextChunker) (md : gmap string string)
    (bound : nat) (sentences : list string) (cur : string) :
  (Z.of_nat bound < min_chunk_length self + 1)%Z →
  buffer_weight cur + joined_weight sentences ≤ bound →
  ∃ cur', foldl (chunk_step self md) ([], cur) sentences = ([], cur')
          ∧ buffer_weight cur' ≤ bound.
Proof.
  intros Hmin. revert cur.
  induction sentences as [|s sentences IH]; intros cur Hw; simpl in *.
  - exists cur. split; [done | lia].
  - assert ((len cur >=? min_chunk_length self)%Z = false) as Hshort.
    { rewrite Z.geb_leb. apply Z.leb_gt. unfold len.
      destruct cur as [|c cur]; simpl in *; lia. }
    rewrite Hshort, andb_false_r. apply IH.
    unfold truthy. case_bool_decide as Hcur.
    + destruct cur as [|c cur]; [done |].
      rewrite string_app_cons. simpl in *.
      rewrite string_length_app.
      change (String.length (" " +:+ s)) with (S (String.length s)). lia.
    + subst cur. destruct s; simpl in *; lia.
Qed.

(** X3. A text shorter than [min_chunk_length] yields no chunk at all: it is
    dropped without a trace, whatever the chunk size and overlap. *)
Theorem short_text_no_chunks (self : TextChunker) (txt : string)
    (md : gmap string string) :
  (len txt < min_chunk_length self)%Z → _chunk_text self txt md = [].
Proof.
  intros Hlen. unfold _chunk_text, chunk_sentences, re_split_sentences.
  destruct (short_text_foldl self md (String.length txt + 1)
              (re_split_go (InText false) txt) "") as (cur & -> & Hcur).
  { unfold len in Hlen. lia. }
  { simpl. apply joined_weight_re_split_go. }
  unfold flush, truthy. case_bool_decide as Hne; [| done]. simpl.
  apply buffer_weight_bound in Hne.
  rewrite Z.geb_leb, (proj2 (Z.leb_gt _ _)); [done |].
  unfold len in *. lia.
Qed.

Lemma short_text_no_chunks_witness :
  _chunk_text default_chunker "Too short to keep. Really." ∅ = [].
Proof. apply short_text_no_chunks. by vm_compute. Defined.

(** *** A text of one sentence *)

Fixpoint no_terminal (s : string) : bool :=
  match s with
  | "" => true
  | String c s' => negb (is_terminal c) && no_terminal s'
  end.

Lemma re_split_no_terminal (s : string) :
  no_terminal s = true → re_split_go (InText false) s = [s].
Proof.
  induction s as [|c s IH]; [done |]. simpl.
  intros [Hc Hs]%andb_prop. apply negb_true_iff in Hc.
  rewrite Hc, IH by done. by destruct (is_space c).
Qed.

(** X4. A text without sentence-ending punctuation is one sentence, and it is
    emitted whole as one chunk once it reaches the minimum length, however
    far it exceeds [chunk_size]. *)
Theorem single_sentence_emitted_whole (self : TextChunker) (txt : string)
    (md : gmap string string) :
  no_terminal txt = true →
  (0 < min_chunk_length self ≤ len txt)%Z →
  _chunk_text self txt md = [{| text := strip txt; metadata := md |}].
Proof.
  intros Hnt [Hpos Hlen].
  unfold _chunk_text, chunk_sentences, re_split_sentences.
  rewrite re_split_no_terminal by done. simpl.
  assert ((len "" >=? min_chunk_length self)%Z = false) as ->.
  { rewrite Z.geb_leb. apply Z.leb_gt. unfold len. simpl. lia. }
  rewrite andb_false_r. simpl. unfold truthy.
  rewrite bool_decide_eq_true_2.
  - by rewrite Z.geb_leb, (proj2 (Z.leb_le _ _)) by lia.
  - intros ->. unfold len in Hlen. simpl in Hlen. lia.
Qed.

Definition run_on_text : string := repeat_char "x" 600.

Lemma single_sentence_emitted_whole_witness :
  (chunk_size default_chunker < len run_on_text)%Z
  ∧ _chunk_text default_chunker run_on_text ∅
    = [{| text := strip run_on_text; metadata := ∅ |}].
Proof.
  split; [by vm_compute |].
  apply single_sentence_emitted_whole; by vm_compute.
Defined.

End ChunkerExtra.

(** ** [TextChunker.process_files] and the files it reads *)

Module chunker_files.
Import Py chunker model.

(** [s.split(sep)] for a one-character separator: never empty. *)
Fixpoint split_char (sep : ascii) (s : string) : list string :=
  match s with
  | "" => [""]
  | String c s' =>
      if bool_decide (c = sep) then "" :: split_char sep s'
      else cons_head c (split_char sep s')
  end.

(** [s.replace(old, new)] for a non-empty [old]: the occurrences are
    found from left to right and do not overlap; [skip] counts the
    characters of a found occurrence that are still to be passed over. *)
Fixpoint replace_go (old new : string) (skip : nat) (s : string) : string :=
  match s with
  | "" => ""
  | String c s' =>
      match skip with
      | S k => replace_go old new k s'
      | O =>
          if String.prefix old s
          then new +:+ replace_go old new (String.length old - 1) s'
          else String c (replace_go old new 0 s')
      end
  end.

Definition replace (old new s : string) : string := replace_go old new 0 s.

(** [s.endswith(suffix)] *)
Fixpoint endswith (suffix s : string) : bool :=
  bool_decide (s = suffix)
  || match s with
     | "" => false
     | String _ s' => endswith suffix s'
     end.

(** Lines 88-92: the provenance line is taken off the content. The result
    is [(source, content)]. *)
Definition parse_source (content : string) : string * string :=
  let lines := split_char "010" content in
  match lines with
  | first :: rest =>
      if String.prefix "Source:" first
      then (strip (replace "Source:" "" first), join LF rest)
      else ("", content)
  | [] => ("", content)
  end.

(** Lines 95-100. *)
Definition file_metadata (source filename subfolder : string)
    : gmap string string :=
  {[ "source" := source;
     "filename" := filename;
     "source_type" := subfolder;
     "doc_id" := subfolder +:+ "_" +:+ filename ]}.

(** The body of the [try] for one file whose content was read. *)
Definition process_content (self : TextChunker) (subfolder filename : string)
    (content : string) : list Chunk :=
  let '(source, content) := parse_source content in
  _chunk_text self content (file_metadata source filename subfolder).

(** What [os.listdir] and [open(...).read()] give for one folder: the file
    names in the order of the listing, each with its content or with the
    exception that reading it raises. *)
Definition Folder := list (string * result string).

(** The loop over the files of one folder (lines 78-109): a file that is
    no [.txt], or that cannot be read, adds nothing. *)
Definition process_folder (self : TextChunker) (subfolder : string)
    (all_chunks : list Chunk) (files : Folder) : list Chunk :=
  foldl (λ all_chunks '(filename, read),
           if negb (endswith ".txt" filename) then all_chunks
           else match read with
                | Ok content =>
                    all_chunks ++ process_content self subfolder filename content
                | Raise _ => all_chunks
                end)
        all_chunks files.

(** The value that [process_files] returns, over the raw data directory
    [raw]: a folder that does not exist is absent from the map. *)
Definition process_files (self : TextChunker) (raw : gmap string Folder)
    : list Chunk :=
  foldl (λ all_chunks subfolder,
           match raw !! subfolder with
           | None => all_chunks
           | Some files => process_folder self subfolder all_chunks files
           end)
        [] ["web"; "pdf_extracted"; "youtube"].

(** What the collectors write: [WebScraper.scrape_urls] (lines 61-62),
    [PDFExtractor.extract_pdfs] (lines 48-49) and
    [YouTubeTranscriptFetcher.fetch_transcripts] (lines 73-75). *)
Definition scraped_page (url content : string) : string :=
  ("Source: " +:+ url +:+ LF +:+ LF) +:+ content.



End chunker_files.

Module FilesExamples.
Import Py chunker_files.

Example split_lines : split_char "010" ("a" +:+ LF +:+ LF +:+ "b") = ["a"; ""; "b"].
Proof. reflexivity. Qed.

Example replace_all : replace "ab" "-" "xabababy" = "x---y".
Proof. reflexivity. Qed.

Example replace_no_overlap : replace "aa" "b" "aaa" = "ba".
Proof. reflexivity. Qed.

Example parse_page :
  parse_source (scraped_page "https://a.test/x" "Body.")
  = ("https://a.test/x", LF +:+ "Body.").
Proof. reflexivity. Qed.

End FilesExamples.

Module FilesSpec.
Import Py PyFacts StripFacts chunker model chunker_files.

(** The character [c] occurs in [s]. *)
Fixpoint has_char (c : ascii) (s : string) : bool :=
  match s with
  | "" => false
  | String c' s' => bool_decide (c' = c) || has_char c s'
  end.

Lemma has_char_app (c : ascii) (s1 s2 : string) :
  has_char c (s1 +:+ s2) = has_char c s1 || has_char c s2.
Proof.
  induction s1 as [|c' s1 IH]; [done |].
  rewrite string_app_cons. simpl. by rewrite IH, orb_assoc.
Qed.

Lemma split_char_nonempty (sep : ascii) (s : string) : split_char sep s ≠ [].
Proof.
  induction s as [|c s IH]; [done |]. simpl. case_bool_decide; [done |].
  by destruct (split_char sep s).
Qed.

(** Splitting at a character and joining with it gives the string back. *)
Lemma join_split_char (sep : ascii) (s : string) :
  join (String sep "") (split_char sep s) = s.
Proof.
  induction s as [|c s IH]; [done |]. simpl. case_bool_decide as Hc.
  - subst c. pose proof (split_char_nonempty sep s) as Hne.
    destruct (split_char sep s) as [|p ps]; [done |].
    change (join (String sep "") ("" :: p :: ps))
      with (String sep (join (String sep "") (p :: ps))).
    by rewrite IH.
  - pose proof (split_char_nonempty sep s) as Hne.
    destruct (split_char sep s) as [|p ps]; [done |]. simpl cons_head.
    rewrite <-IH. unfold join. simpl. by destruct ps.
Qed.

Lemma split_char_first_line (sep : ascii) (first rest : string) :
  has_char sep first = false →
  split_char sep (first +:+ String sep rest) = first :: split_char sep rest.
Proof.
  induction first as [|c first IH]; intros Hc.
  - rewrite string_app_nil_l. simpl. by rewrite bool_decide_eq_true_2.
  - simpl in Hc. apply orb_false_elim in Hc as [Hc Hfirst].
    rewrite string_app_cons. simpl. rewrite Hc, IH by done. done.
Qed.

Lemma replace_go_absent (old new s : string) :
  contains old s = false → replace_go old new 0 s = s.
Proof.
  induction s as [|c s IH]; [done |].
  simpl contains. intros [Hp Hs]%orb_false_elim.
  simpl replace_go. rewrite Hp. by rewrite IH.
Qed.

Lemma contains_cons_ne (old : string) (c c' : ascii) (old' s : string) :
  old = String c' old' → c ≠ c' →
  contains old (String c s) = contains old s.
Proof.
  intros -> Hc. simpl. destruct (ascii_dec c' c); [congruence | done].
Qed.

Lemma parse_source_line (source body : string) :
  has_char "010" source = false →
  contains "Source:" source = false →
  strip source = source →
  parse_source ("Source: " +:+ source +:+ LF +:+ body) = (source, body).
Proof.
  intros Hline Hnone Hstrip. unfold parse_source.
  rewrite <-(string_app_assoc "Source: " source).
  change (LF +:+ body) with (String "010" body).
  rewrite split_char_first_line by (by rewrite has_char_app, Hline).
  replace (String.prefix "Source:" ("Source: " +:+ source)) with true
    by reflexivity.
  rewrite (join_split_char "010"). f_equal.
  change (replace "Source:" "" ("Source: " +:+ source))
    with (replace_go "Source:" "" 0 (String " " source)).
  rewrite replace_go_absent.
  - unfold strip in *. change (lstrip (String " " source)) with (lstrip source).
    done.
  - by rewrite (contains_cons_ne _ _ "S" "ource:").
Qed.

(** X5. The provenance line that a collector writes comes back as the source,
    and what follows it as the content: for a source that is one line,
    holds no ["Source:"] and has no blank at either end. *)
Theorem parse_source_round_trip (source body : string) :
  has_char "010" source = false →
  contains "Source:" source = false →
  strip source = source →
  parse_source ("Source: " +:+ source +:+ LF +:+ body) = (source, body).
Proof. apply parse_source_line. Qed.

Lemma parse_source_round_trip_witness :
  parse_source ("Source: " +:+ "notes/intro.pdf" +:+ LF +:+ "Body text.")
  = ("notes/intro.pdf", "Body text.").
Proof. apply parse_source_round_trip; reflexivity. Defined.







(** *** The loop over the files *)

(** The chunks that one entry of a listing adds. *)
Definition file_chunks (self : TextChunker) (subfolder : string)
    (entry : string * result string) : list Chunk :=
  if endswith ".txt" entry.1
  then match entry.2 with
       | Ok content => process_content self subfolder entry.1 content
       | Raise _ => []
       end
  else [].

Lemma elem_of_concat {A} (x : A) (ls : list (list A)) :
  x ∈ concat ls ↔ ∃ l, x ∈ l ∧ l ∈ ls.
Proof.
  induction ls as [|l ls IH]; simpl.
  - split; [by intros ?%elem_of_nil | by intros (l & _ & ?%elem_of_nil)].
  - rewrite elem_of_app, IH. split.
    + intros [?|(l' & ? & ?)]; [exists l; split; [done | left] |
                                 exists l'; split; [done | by right]].
    + intros (l' & Hx & [->|?]%elem_of_cons); [by left | right; eauto].
Qed.

Lemma process_folder_concat (self : TextChunker) (subfolder : string)
    (all_chunks : list Chunk) (files : Folder) :
  process_folder self subfolder all_chunks files
  = all_chunks ++ concat (file_chunks self subfolder <$> files).
Proof.
  unfold process_folder. revert all_chunks.
  induction files as [|[filename read] files IH]; intros all_chunks; simpl.
  - by rewrite app_nil_r.
  - rewrite IH. unfold file_chunks at 2. simpl.
    destruct (endswith ".txt" filename); simpl; [| done].
    destruct read; simpl; [| done]. by rewrite app_assoc.
Qed.

(** X8. A file that cannot be read, or whose name does not end in [.txt], is
    passed over: the chunks of a folder are those of the same listing
    without it, so the files before and after it are chunked as usual. *)
Theorem process_folder_skips (self : TextChunker) (subfolder : string)
    (all_chunks : list Chunk) (before after : Folder) (filename : string)
    (read : result string) :
  endswith ".txt" filename = false ∨ (∃ msg, read = Raise msg) →
  process_folder self subfolder all_chunks
    (before ++ (filename, read) :: after)
  = process_folder self subfolder all_chunks (before ++ after).
Proof.
  intros Hskip. rewrite !process_folder_concat, !fmap_app, !concat_app.
  rewrite fmap_cons, concat_cons.
  assert (file_chunks self subfolder (filename, read) = []) as ->; [| done].
  unfold file_chunks. simpl. destruct Hskip as [-> | [msg ->]]; [done |].
  by destruct (endswith ".txt" filename).
Qed.

Lemma process_folder_skips_witness :
  process_folder default_chunker "web" []
    ([("a.txt", Ok "Source: x")] ++ ("b.txt", Raise "PermissionError")
       :: [("c.md", Ok "text")])
  = process_folder default_chunker "web" []
      ([("a.txt", Ok "Source: x")] ++ [("c.md", Ok "text")]).
Proof. apply process_folder_skips. right. by exists "PermissionError". Defined.

Lemma process_files_concat (self : TextChunker) (raw : gmap string Folder) :
  process_files self raw
  = concat ((λ subfolder,
               concat (file_chunks self subfolder
                       <$> default [] (raw !! subfolder)))
            <$> ["web"; "pdf_extracted"; "youtube"]).
Proof.
  unfold process_files. simpl.
  destruct (raw !! "web"), (raw !! "pdf_extracted"), (raw !! "youtube");
    simpl; rewrite ?process_folder_concat, ?app_nil_r, ?app_assoc; done.
Qed.

(** X9. Every chunk that [process_files] returns comes from a readable [.txt]
    file of one of the three raw folders and carries that file's
    provenance: the source taken from its first line, its name, its folder
    and the identifier made of the two. *)
Theorem process_files_provenance (self : TextChunker)
    (raw : gmap string Folder) (c : Chunk) :
  c ∈ process_files self raw →
  ∃ subfolder files filename content,
    subfolder ∈ ["web"; "pdf_extracted"; "youtube"]
    ∧ raw !! subfolder = Some files
    ∧ (filename, Ok content) ∈ files
    ∧ endswith ".txt" filename = true
    ∧ metadata c
      = file_metadata (parse_source content).1 filename subfolder
    ∧ metadata c !! "doc_id" = Some (subfolder +:+ "_" +:+ filename).
Proof.
  rewrite process_files_concat.
  intros (chunks & Hc & (subfolder & -> & Hsub)%list_elem_of_fmap)%elem_of_concat.
  apply elem_of_concat in Hc
    as (chunks' & Hc & ([filename read] & -> & Hfile)%list_elem_of_fmap).
  destruct (raw !! subfolder) as [files|] eqn:Hraw;
    [| by apply elem_of_nil in Hfile].
  simpl in Hfile. unfold file_chunks in Hc. simpl in Hc.
  destruct (endswith ".txt" filename) eqn:Htxt; [| by apply elem_of_nil in Hc].
  destruct read as [content|msg]; [| by apply elem_of_nil in Hc].
  exists subfolder, files, filename, content.
  do 4 (split; [done |]).
  unfold process_content in Hc.
  destruct (parse_source content) as [source body] eqn:Hparse.
  pose proof (ChunkerExtra.chunk_text_stripped_all self body
                (file_metadata source filename subfolder)) as Hall.
  rewrite Forall_forall in Hall. destruct (Hall c Hc) as [_ ->].
  split; [done |]. unfold file_metadata.
  by simplify_map_eq.
Qed.

Definition one_page : gmap string Folder :=
  {[ "web" := [("intro.txt", Ok ("Source: https://a.test" +:+ LF +:+ "Hello."))] ]}.

Lemma process_files_provenance_witness :
  ∃ subfolder files filename content,
    subfolder ∈ ["web"; "pdf_extracted"; "youtube"]
    ∧ one_page !! subfolder = Some files
    ∧ (filename, Ok content) ∈ files
    ∧ endswith ".txt" filename = true
    ∧ file_metadata "https://a.test" "intro.txt" "web"
      = file_metadata (parse_source content).1 filename subfolder
    ∧ file_metadata "https://a.test" "intro.txt" "web" !! "doc_id"
      = Some (subfolder +:+ "_" +:+ filename).
Proof.
  apply (process_files_provenance ChunkerSpec.small_chunker one_page
           {| text := "Hello.";
              metadata := file_metadata "https://a.test" "intro.txt" "web" |}).
  apply list_elem_of_lookup. exists 0. by vm_compute.
Defined.

End FilesSpec.

(** ** More on the retriever *)

Module RetrieverExtra.
Import Py PyFacts retriever RetrieverSpec.

Lemma elem_of_retrieve (self : Retriever) (query : string)
    (filters : gmap string string) (doc : RetrievedDocument) :
  doc ∈ retrieve self query (Some filters)
  ↔ doc ∈ vector_db_search self query (top_k self)
    ∧ agrees_on_present_keys filters (metadata doc).
Proof.
  unfold retrieve, agrees_on_present_keys.
  set (results := vector_db_search self query (top_k self)).
  case_bool_decide as Hf; simpl.
  - case_bool_decide as Hr; simpl.
    + rewrite elem_of_apply_filters, matches_filters_spec.
      by setoid_rewrite elem_of_map_to_list.
    + rewrite Hr.
      split; [by intros ?%elem_of_nil | by intros [?%elem_of_nil _]].
  - subst filters. split; [| by intros [? _]].
    intros H. split; [done |]. intros key value v Hk.
    by rewrite lookup_empty in Hk.
Qed.

(** X10. A document whose metadata holds a filter key with another value than
    the filter's is never returned. *)
Theorem retrieve_drops_mismatch (self : Retriever) (query : string)
    (filters : gmap string string) (doc : RetrievedDocument)
    (key value v : string) :
  filters !! key = Some value →
  metadata doc !! key = Some v →
  v ≠ value →
  doc ∉ retrieve self query (Some filters).
Proof.
  intros Hf Hd Hne [_ Hagree]%elem_of_retrieve.
  by apply Hne, (Hagree key value v).
Qed.

Definition pdf_doc : RetrievedDocument :=
  {| text := "Chapter one.";
     metadata := {[ "source_type" := "pdf_extracted" ]};
     id := "result_0" |}.

Lemma retrieve_drops_mismatch_witness :
  pdf_doc ∉ retrieve {| vector_db_search := λ _ _, [pdf_doc]; top_k := 5 |}
              "chapter" (Some web_only).
Proof.
  apply (retrieve_drops_mismatch _ _ _ _ "source_type" "web" "pdf_extracted");
    done.
Defined.

(** X11. Adding filters never adds documents: what is returned under a larger
    filter mapping is returned under every part of it. *)
Theorem retrieve_antitone (self : Retriever) (query : string)
    (filters filters' : gmap string string) (doc : RetrievedDocument) :
  filters ⊆ filters' →
  doc ∈ retrieve self query (Some filters') →
  doc ∈ retrieve self query (Some filters).
Proof.
  intros Hsub [Hin Hagree]%elem_of_retrieve. apply elem_of_retrieve.
  split; [done |]. intros key value v Hk.
  apply (Hagree key value v). by eapply lookup_weaken.
Qed.

Lemma retrieve_antitone_witness :
  bare_doc ∈ retrieve bare_index "python" (Some ∅).
Proof.
  apply (retrieve_antitone bare_index "python" ∅ web_only bare_doc).
  - apply map_empty_subseteq.
  - by vm_compute; left.
Defined.

End RetrieverExtra.

(** ** More on the generator and the language model *)

Module GeneratorExtra.
Import Py PyFacts FormatSpec generator GeneratorSpec.

(** *** The web content *)

Lemma slice_to_length_le (n : nat) (s : string) :
  String.length (slice_to n s) ≤ n.
Proof.
  unfold slice_to. revert n.
  induction s as [|c s IH]; intros [|n]; simpl; try lia.
  all: specialize (IH n); lia.
Qed.

(** X12. Whatever the search and the pages return, the web content handed to
    the prompt is at most 4023 characters long. *)
Theorem perform_dynamic_search_bounded (self : Generator) (question : string) :
  String.length (perform_dynamic_search self question) ≤ 4023.
Proof.
  unfold perform_dynamic_search.
  destruct (search (dynamic_search self) question 3) as [|r rs];
    [simpl; lia |].
  set (combined := combined_content self (r :: rs)).
  rewrite Z.gtb_ltb. destruct (Z.ltb_spec (Z.of_nat 4000) (len combined)).
  - rewrite string_length_app. pose proof (slice_to_length_le 4000 combined).
    simpl. lia.
  - unfold len in *. lia.
Qed.

(** A hit without a usable address: no [url], or an empty one. *)
Definition no_url (r : SearchResult) : Prop :=
  url r = None ∨ url r = Some "".

Lemma extract_all_no_url (self : Generator) (i : nat)
    (results : list SearchResult) :
  Forall no_url results → extract_all self i results = [].
Proof.
  intros H. revert i. induction H as [|r rs Hr _ IH]; intros i; [done |].
  simpl. destruct Hr as [-> | ->]; simpl; apply IH.
Qed.

(** X13. When no hit of the web search has a usable address, no page is fetched
    and the answer rests on the local documents alone: the context is the
    local one and the sources are the local ones. *)
Theorem no_url_falls_back (self : Generator) (question : string) :
  Forall no_url (search (dynamic_search self) question 3) →
  let docs := retrieve (retriever self) question None in
  assemble_context self question
  = (format_for_prompt docs, gathered_sources docs,
     (assemble_context self question).2)
  ∧ merged self question = false.
Proof.
  intros Hno docs.
  assert (perform_dynamic_search self question = ""
          ∨ perform_dynamic_search self question
            = "No relevant information found from web search.") as Hdc.
  { unfold perform_dynamic_search.
    destruct (search (dynamic_search self) question 3) as [|r rs] eqn:E;
      [by right |].
    left. unfold combined_content. by rewrite extract_all_no_url. }
  assert (merged self question = false) as Hm.
  { unfold merged. destruct Hdc as [-> | ->]; simpl;
      by rewrite ?andb_false_r. }
  split; [| done].
  unfold assemble_context. fold docs.
  destruct (dynamic_search_enabled self && negb _); [| done].
  by destruct Hdc as [-> | ->].
Qed.

Definition linkless : DynamicSearchEngine :=
  {| search := λ _ _,
       [{| title := "Roadmap"; url := None; snippet := "A roadmap" |};
        {| title := "Guide"; url := Some ""; snippet := "A guide" |}];
     extract_content := λ _, "Content from nowhere" |}.

Lemma no_url_falls_back_witness :
  merged (searching_generator linkless) "How do I start?" = false.
Proof.
  assert (Forall no_url
            (search (dynamic_search (searching_generator linkless))
               "How do I start?" 3)) as Hno.
  { apply Forall_cons. split; [by left |].
    apply Forall_cons. split; [by right | apply Forall_nil_2]. }
  exact (proj2 (no_url_falls_back (searching_generator linkless)
                  "How do I start?" Hno)).
Defined.

Lemma assemble_context_off (self : Generator) (question : string) :
  dynamic_search_enabled self
  && negb (is_content_relevant self question
             (retrieve (retriever self) question None)) = false →
  assemble_context self question
  = (format_for_prompt (retrieve (retriever self) question None),
     gathered_sources (retrieve (retriever self) question None), None).
Proof. intros H. unfold assemble_context. by rewrite H. Qed.

(** X14. With the dynamic search switched off, or with the gate satisfied, the
    search engine is not consulted: the context, the sources and the flag
    do not depend on it. *)
Theorem engine_not_consulted (self : Generator) (question : string)
    (engine : DynamicSearchEngine) :
  dynamic_search_enabled self = false
  ∨ is_content_relevant self question
      (retrieve (retriever self) question None) = true →
  assemble_context
    {| prompt_template := prompt_template self;
       dynamic_search_enabled := dynamic_search_enabled self;
       llm := llm self;
       retriever := retriever self;
       dynamic_search := engine |} question
  = assemble_context self question
  ∧ (assemble_context self question).2 = None.
Proof.
  intros H.
  assert (dynamic_search_enabled self
          && negb (is_content_relevant self question
                     (retrieve (retriever self) question None)) = false) as Hoff.
  { destruct H as [-> | H]; [done |]. rewrite H. apply andb_false_r. }
  rewrite (assemble_context_off self question Hoff).
  split; [| done].
  apply (assemble_context_off
           {| prompt_template := prompt_template self;
              dynamic_search_enabled := dynamic_search_enabled self;
              llm := llm self;
              retriever := retriever self;
              dynamic_search := engine |} question Hoff).
Qed.

Lemma engine_not_consulted_witness :
  assemble_context
    {| prompt_template := "";
       dynamic_search_enabled := false;
       llm := llm crashing_generator;
       retriever := retriever crashing_generator;
       dynamic_search := unreachable_hit |} "What is Rust?"
  = assemble_context crashing_generator "What is Rust?"
  ∧ (assemble_context crashing_generator "What is Rust?").2 = None.
Proof.
  apply (engine_not_consulted crashing_generator "What is Rust?"
           unreachable_hit).
  by left.
Defined.

(** *** The prompt *)

Lemma contains_prefix (needle s : string) :
  String.prefix needle s = true → contains needle s = true.
Proof. intros H. destruct s; simpl in *; by rewrite H. Qed.

Lemma contains_cons (needle : string) (c : ascii) (s : string) :
  contains needle s = true → contains needle (String c s) = true.
Proof. intros H. simpl. rewrite H. apply orb_true_r. Qed.

Lemma contains_app (needle before after : string) :
  contains needle (before +:+ needle +:+ after) = true.
Proof.
  induction before as [|c before IH].
  - rewrite string_app_nil_l. apply contains_prefix, string_prefix_app.
  - rewrite string_app_cons. by apply contains_cons.
Qed.

Lemma contains_within (needle s before after : string) :
  s = before +:+ needle +:+ after → contains needle s = true.
Proof. intros ->. apply contains_app. Qed.


(** X15. A template without both placeholders never goes through [str.format]:
    the prompt is built without an exception, and it holds the context and
    the question word for word. *)
Theorem build_prompt_fallback
    (str_format : string → string → string → result string)
    (self : Generator) (context question : string) :
  contains "{context}" (prompt_template self) = false
  ∨ contains "{question}" (prompt_template self) = false →
  ∃ prompt,
    build_prompt str_format self context question = Ok prompt
    ∧ contains context prompt = true
    ∧ contains question prompt = true.
Proof.
  intros H. unfold build_prompt.
  assert (contains "{context}" (prompt_template self)
          && contains "{question}" (prompt_template self) = false) as ->.
  { destruct H as [-> | ->]; [done | apply andb_false_r]. }
  eexists. split; [done |]. split.
  - apply (contains_within _ _
      ("<|system|>" +:+ LF
       +:+ "You are TechMentor AI, a helpful tech career advisor. Answer the user's question based on the following information:" +:+ LF)
      (LF +:+ "</s>" +:+ LF +:+ LF +:+ "<|user|>" +:+ LF
       +:+ question +:+ LF +:+ "</s>" +:+ LF +:+ LF +:+ "<|assistant|>" +:+ LF)).
    by rewrite !string_app_assoc.
  - apply (contains_within _ _
      ("<|system|>" +:+ LF
       +:+ "You are TechMentor AI, a helpful tech career advisor. Answer the user's question based on the following information:" +:+ LF
       +:+ context +:+ LF +:+ "</s>" +:+ LF +:+ LF +:+ "<|user|>" +:+ LF)
      (LF +:+ "</s>" +:+ LF +:+ LF +:+ "<|assistant|>" +:+ LF)).
    by rewrite !string_app_assoc.
Qed.

Lemma build_prompt_fallback_witness :
  ∃ prompt,
    build_prompt (λ _ _ _, Raise "KeyError") crashing_generator
      "Rust is a language." "What is Rust?" = Ok prompt
    ∧ contains "Rust is a language." prompt = true
    ∧ contains "What is Rust?" prompt = true.
Proof. apply build_prompt_fallback. by left. Defined.



(** *** The language model *)

Lemma generate_value (l : LocalLLM) (prompt : string) :
  (generate l prompt).1
  = match active_model l with
    | Some m =>
        match m prompt with
        | Ok response => response
        | Raise msg => "Error during text generation: " +:+ msg
        end
    | None => "Error: Model could not be loaded. Please check the logs."
    end.
Proof.
  unfold generate, active_model, load_model, call_model.
  destruct l as [[m|] file]; simpl.
  - by destruct (m prompt).
  - destruct file as [[m|msg]|]; simpl; [| done | done].
    by destruct (m prompt).
Qed.

(** X17. The answer of [generate] is the output of the model that is loaded or
    can be loaded, or the text of the exception it raises; without such a
    model (no file, or a file that fails to load) it is the fixed loading
    error. *)
Theorem generate_answer (l : LocalLLM) (prompt : string) :
  (generate l prompt).1
  = match active_model l with
    | Some m =>
        match m prompt with
        | Ok response => response
        | Raise msg => "Error during text generation: " +:+ msg
        end
    | None => "Error: Model could not be loaded. Please check the logs."
    end.
Proof. apply generate_value. Qed.

(** X18. A call of [generate] never touches the model file, leaves a loaded
    model in place, and loads at most once: after one call, further calls
    do not change the state. *)
Theorem generate_state (l : LocalLLM) (prompt prompt' : string) :
  model_file (generate l prompt).2 = model_file l
  ∧ (is_Some (model l) → (generate l prompt).2 = l)
  ∧ model (generate l prompt).2 = active_model l
  ∧ (generate (generate l prompt).2 prompt').2 = (generate l prompt).2.
Proof.
  unfold generate, active_model, load_model.
  destruct l as [[m|] file]; simpl.
  - repeat split; done.
  - destruct file as [[m|msg]|]; simpl; repeat split; try done;
      by intros [? ?].
Qed.

(** *** A source list without entries *)

Lemma source_lines_unprinted (i : nat) (l : list string) :
  Forall (λ s, printed s = false) l → source_lines i l = "".
Proof.
  intros H. revert i. induction H as [|s l Hs _ IH]; intros i; [done |].
  simpl. by rewrite Hs, IH.
Qed.

(** X19. When sources were gathered but none of them is printed (all are empty
    or ["Unknown"]), the formatted response still ends with the heading
    [Sources:], with nothing under it. *)
Theorem format_response_dangling_heading
    (list_of_set : list string → list string) (resp : GenerationResponse) :
  set_listing list_of_set →
  sources resp ≠ [] →
  Forall (λ s, printed s = false) (sources resp) →
  format_response_with_sources list_of_set resp
  = answer resp
    +:+ (if used_dynamic_search resp
         then LF +:+ LF
              +:+ "[Note: This response includes information from a real-time web search]"
         else "")
    +:+ LF +:+ LF +:+ "Sources:" +:+ LF.
Proof.
  intros Hset Hne Hall. unfold format_response_with_sources.
  destruct (sources resp) as [|s0 srcs] eqn:E; [done |].
  rewrite sources_loop_lines, source_lines_unprinted.
  - rewrite string_app_nil_r.
    destruct (used_dynamic_search resp); by rewrite ?string_app_assoc.
  - apply Forall_forall. intros s Hs.
    rewrite Forall_forall in Hall. apply Hall. by apply (Hset (s0 :: srcs)).
Qed.

Lemma format_response_dangling_heading_witness :
  format_response_with_sources remove_dups
    {| question := "q"; answer := "A"; sources := ["Unknown"; ""; "Unknown"];
       used_dynamic_search := false |}
  = "A" +:+ "" +:+ LF +:+ LF +:+ "Sources:" +:+ LF.
Proof.
  apply (format_response_dangling_heading remove_dups
           {| question := "q"; answer := "A";
              sources := ["Unknown"; ""; "Unknown"];
              used_dynamic_search := false |}).
  - apply set_listing_remove_dups.
  - done.
  - by repeat (apply Forall_cons; split; [done |]).
Defined.

End GeneratorExtra.

(** ** [app/app.py]: what the chat shows *)

Module app.
Import Py model generator.


Section with_builtins.

Variable str_format : string → string → string → result string.
Variable list_of_set : list string → list string.

(** [render_sources]: the markup handed to [st.markdown], or nothing. *)
Definition render_sources (sources : list string) : option string :=
  if bool_decide (sources = [])
     || forallb (λ s, bool_decide (s = "Unknown")) sources
  then None
  else
    let unique_sources :=
      list_of_set
        (List.filter (λ s, truthy s && bool_decide (s ≠ "Unknown")) sources) in
    match unique_sources with
    | [] => None
    | _ =>
        let sources_html :=
          "<div class='source-citation'><strong>Sources:</strong><ul>" in
        let sources_html :=
          foldl (λ sources_html source,
                   sources_html +:+ "<li>" +:+ source +:+ "</li>")
                sources_html unique_sources in
        Some (sources_html +:+ "</ul></div>")
    end.


End with_builtins.

End app.

Module AppSpec.
Import Py PyFacts model generator GeneratorSpec app.

Lemma concat_empty_cons (x : string) (l : list string) :
  String.concat "" (x :: l) = x +:+ String.concat "" l.
Proof. destruct l; [by rewrite string_app_nil_r | done]. Qed.

Lemma render_loop_items (html : string) (l : list string) :
  foldl (λ sources_html source, sources_html +:+ "<li>" +:+ source +:+ "</li>")
        html l
  = html +:+ String.concat "" ((λ source, "<li>" +:+ source +:+ "</li>") <$> l).
Proof.
  revert html. induction l as [|source l IH]; intros html.
  - simpl. by rewrite string_app_nil_r.
  - rewrite fmap_cons, concat_empty_cons. cbn [foldl].
    by rewrite IH, !string_app_assoc.
Qed.

Lemma forallb_unknown_unprinted (l : list string) :
  forallb (λ s, bool_decide (s = "Unknown")) l = true →
  Forall (λ s, printed s = false) l.
Proof.
  induction l as [|s l IH]; [constructor |]. simpl.
  intros [Hs Hl]%andb_prop. apply bool_decide_eq_true in Hs. subst s.
  constructor; [done | auto].
Qed.

Lemma filter_printed_nil (l : list string) :
  List.filter (λ s, truthy s && bool_decide (s ≠ "Unknown")) l = []
  ↔ Forall (λ s, printed s = false) l.
Proof.
  unfold printed. induction l as [|s l IH]; simpl.
  - split; [constructor | done].
  - destruct (truthy s && bool_decide (s ≠ "Unknown")) eqn:Hs.
    + split; [done |]. intros [H _]%Forall_cons. congruence.
    + rewrite IH. split; [by constructor | by intros [_ ?]%Forall_cons].
Qed.

(** X20. The chat renders a source list exactly when some source is non-empty
    and not ["Unknown"]; the list then holds each such source once, and no
    other entry. *)
Theorem render_sources_spec (list_of_set : list string → list string)
    (sources : list string) :
  set_listing list_of_set →
  (render_sources list_of_set sources = None
   ↔ Forall (λ s, printed s = false) sources)
  ∧ ∀ html,
      render_sources list_of_set sources = Some html →
      ∃ unique_sources,
        NoDup unique_sources
        ∧ (∀ s, s ∈ unique_sources ↔ s ∈ sources ∧ printed s = true)
        ∧ html
          = "<div class='source-citation'><strong>Sources:</strong><ul>"
            +:+ String.concat ""
                  ((λ source, "<li>" +:+ source +:+ "</li>") <$> unique_sources)
            +:+ "</ul></div>".
Proof.
  intros Hset. unfold render_sources.
  set (kept := List.filter _ sources).
  destruct (Hset kept) as [Hnodup Helem].
  assert (∀ s, s ∈ list_of_set kept ↔ s ∈ sources ∧ printed s = true) as Hkept.
  { intros s. rewrite Helem. subst kept. rewrite !list_elem_of_In.
    rewrite filter_In. done. }
  destruct (bool_decide (sources = []) || forallb _ sources) eqn:Hguard.
  - split; [| done]. split; [intros _ | done].
    apply orb_prop in Hguard as [Hnil | Hall].
    + apply bool_decide_eq_true in Hnil. subst. constructor.
    + by apply forallb_unknown_unprinted.
  - destruct (list_of_set kept) as [|s0 rest] eqn:Hlist.
    + split; [| done]. split; [intros _ | done].
      apply filter_printed_nil. fold kept.
      destruct kept as [|k kept']; [done |].
      assert (k ∈ list_of_set (k :: kept')) as Hk by (apply Hset; left).
      rewrite Hlist in Hk. by apply elem_of_nil in Hk.
    + split.
      * split; [done |]. intros Hall.
        assert (s0 ∈ s0 :: rest) as Hs0 by left.
        apply Hkept in Hs0 as [Hin Hp]. rewrite Forall_forall in Hall.
        rewrite (Hall s0 Hin) in Hp. done.
      * intros html [= <-]. exists (s0 :: rest).
        split; [done |]. split; [done |].
        rewrite render_loop_items, ?fmap_cons, concat_empty_cons.
        by rewrite !string_app_assoc.
Qed.

Lemma render_sources_spec_witness :
  render_sources remove_dups ["Unknown"; ""] = None
  ↔ Forall (λ s, printed s = false) ["Unknown"; ""].
Proof.
  exact (proj1 (render_sources_spec remove_dups ["Unknown"; ""]
                  set_listing_remove_dups)).
Defined.


End AppSpec.

(** ** [src/data_collection]: the pure steps of the collectors *)

Module data_collection.
Import Py model chunker_files.




(** The name of the file that [scrape_urls] writes for a page
    (lines 56-57). *)
Definition page_filename (url : string) : string :=
  let filename :=
    replace "-" "_" (default "" (last (split_char "/" url))) in
  let filename := if truthy filename then filename else "index" in
  filename +:+ ".txt".

End data_collection.

Module CollectorsSpec.
Import Py PyFacts model chunker_files FilesSpec data_collection.

(** *** Video identifiers *)



(** *** File names of scraped pages *)

Lemma split_char_pieces (sep : ascii) (s : string) :
  Forall (λ p, has_char sep p = false) (split_char sep s).
Proof.
  induction s as [|c s IH]; [by repeat constructor |]. simpl.
  case_bool_decide as Hc; [by constructor |].
  destruct (split_char sep s) as [|p ps]; simpl.
  - repeat constructor. simpl. by rewrite bool_decide_eq_false_2.
  - apply Forall_cons in IH as [Hp Hps]. constructor; [| done].
    simpl. by rewrite bool_decide_eq_false_2, Hp.
Qed.

Lemma prefix_dash (c : ascii) (s : string) :
  String.prefix "-" (String c s) = bool_decide (c = "-"%char).
Proof.
  change (String.prefix "-" (String c s))
    with (if ascii_dec "-" c then String.prefix "" s else false).
  destruct (ascii_dec "-" c) as [<-|Hc].
  - rewrite bool_decide_eq_true_2 by done. by destruct s.
  - rewrite bool_decide_eq_false_2; [done | congruence].
Qed.

Lemma replace_dash_cons (c : ascii) (s : string) :
  replace "-" "_" (String c s)
  = String (if bool_decide (c = "-"%char) then "_"%char else c)
      (replace "-" "_" s).
Proof.
  unfold replace.
  change (replace_go "-" "_" 0 (String c s))
    with (if String.prefix "-" (String c s)
          then "_" +:+ replace_go "-" "_" 0 s
          else String c (replace_go "-" "_" 0 s)).
  rewrite prefix_dash. by case_bool_decide.
Qed.

Lemma replace_dash_has_char (d : ascii) (s : string) :
  d ≠ "_"%char →
  has_char d s = false ∨ d = "-"%char →
  has_char d (replace "-" "_" s) = false.
Proof.
  intros Hd. induction s as [|c s IH]; [done |].
  intros Hs. rewrite replace_dash_cons. simpl.
  rewrite IH.
  - rewrite orb_false_r. apply bool_decide_eq_false.
    case_bool_decide as Hc; [congruence |].
    destruct Hs as [Hs | ->]; [| done].
    simpl in Hs. apply orb_false_elim in Hs as [Hs _].
    by apply bool_decide_eq_false in Hs.
  - destruct Hs as [Hs|?]; [| by right]. simpl in Hs.
    apply orb_false_elim in Hs as [_ ?]. by left.
Qed.

Lemma endswith_app (prefix suffix : string) :
  endswith suffix (prefix +:+ suffix) = true.
Proof.
  induction prefix as [|c prefix IH].
  - rewrite string_app_nil_l. destruct suffix; cbn [endswith];
      by rewrite bool_decide_eq_true_2.
  - rewrite string_app_cons. cbn [endswith]. rewrite IH. apply orb_true_r.
Qed.

Lemma last_cons_head (c : ascii) (p q : string) (ps : list string) :
  last (cons_head c (p :: q :: ps)) = last (p :: q :: ps).
Proof. done. Qed.

Lemma split_char_trailing (sep : ascii) (s : string) :
  endswith (String sep "") s = true →
  ∃ p q ps, split_char sep s = p :: q :: ps ∧ last (p :: q :: ps) = Some "".
Proof.
  induction s as [|c s IH]; [done |]. simpl endswith.
  intros [Hs | Hs]%orb_prop.
  - apply bool_decide_eq_true in Hs as [= -> ->]. simpl.
    rewrite bool_decide_eq_true_2 by done. by exists "", "", [].
  - destruct (IH Hs) as (p & q & ps & Hsplit & Hlast). simpl.
    rewrite Hsplit. case_bool_decide.
    + exists "", p, (q :: ps). split; [done |]. by rewrite <-Hlast.
    + exists (String c p), q, ps. split; [done |]. by rewrite <-Hlast.
Qed.

(** X23. The file name of a scraped page holds no [/] and no [-] and ends in
    [.txt]; an address that ends in [/] (or is empty) is stored as
    [index.txt], whatever the site. *)
Theorem page_filename_spec (url : string) :
  has_char "/" (page_filename url) = false
  ∧ has_char "-" (page_filename url) = false
  ∧ endswith ".txt" (page_filename url) = true
  ∧ (url = "" ∨ endswith "/" url = true → page_filename url = "index.txt").
Proof.
  unfold page_filename.
  set (segment := default "" (last (split_char "/" url))).
  assert (has_char "/" segment = false) as Hseg.
  { subst segment. pose proof (split_char_pieces "/" url) as Hall.
    destruct (last (split_char "/" url)) as [x|] eqn:Hlast; [| done].
    rewrite Forall_forall in Hall. apply Hall.
    by apply last_Some_elem_of. }
  repeat split.
  - rewrite has_char_app. destruct (truthy _); [| done].
    rewrite replace_dash_has_char; [done | done | by left].
  - rewrite has_char_app. destruct (truthy _); [| done].
    rewrite replace_dash_has_char; [done | done | by right].
  - apply endswith_app.
  - intros [-> | Hslash]; [done |].
    destruct (split_char_trailing "/" url Hslash) as (p & q & ps & Hs & Hl).
    subst segment. by rewrite Hs, Hl.
Qed.

End CollectorsSpec.

(** ** [src/embeddings/model.py]: [EmbeddingModel.embed_chunks] *)

Module embeddings.
Import Py model.

Section with_model.

(** An embedding vector, and [self.model.encode] on a list of texts. *)
Variable E : Type.
Variable encode : list string → list E.

Record EmbeddedChunk := {
  text : string;
  metadata : gmap string string;
  embedding : E
}.

(** The loop over [range(0, len(texts), batch_size)] for a positive
    [batch_size] (lines 47-50); [fuel] bounds the iterations that are
    left, and [len(texts)] of them are always enough. *)
Fixpoint embed_batches (fuel i batch_size : nat) (texts : list string)
    (all_embeddings : list E) : list E :=
  match fuel with
  | O => all_embeddings
  | S fuel' =>
      if i <? length texts
      then
        let batch_texts := take batch_size (drop i texts) in
        let batch_embeddings := encode batch_texts in
        embed_batches fuel' (i + batch_size) batch_size texts
          (all_embeddings ++ batch_embeddings)
      else all_embeddings
  end.

(** The loop over [enumerate(chunks)] (lines 57-60): [all_embeddings[i]]
    raises when the list is too short. *)
Fixpoint attach_embeddings (i : nat) (chunks : list chunker.Chunk)
    (all_embeddings : list E) : result (list EmbeddedChunk) :=
  match chunks with
  | [] => Ok []
  | chunk :: chunks' =>
      match all_embeddings !! i with
      | None => Raise "list index out of range"
      | Some e =>
          bind (attach_embeddings (S i) chunks' all_embeddings)
            (λ embedded_chunks,
               Ok ({| text := chunker.text chunk;
                      metadata := chunker.metadata chunk;
                      embedding := e |} :: embedded_chunks))
      end
  end.

(** [range] raises on a step of zero and is empty for a negative one. *)
Definition embed_chunks (chunks : list chunker.Chunk) (batch_size : Z)
    : result (list EmbeddedChunk) :=
  let texts := chunker.text <$> chunks in
  if (batch_size =? 0)%Z then Raise "range() arg 3 must not be zero"
  else
    let all_embeddings :=
      if (batch_size <? 0)%Z then []
      else embed_batches (length texts) 0 (Z.to_nat batch_size) texts [] in
    attach_embeddings 0 chunks all_embeddings.

End with_model.

Arguments text {E} _.
Arguments metadata {E} _.
Arguments embedding {E} _.

End embeddings.

Module EmbeddingsSpec.
Import Py model embeddings.

Section with_model.

Context {E : Type} (encode : list string → list E) (encode_text : string → E).

(** The model embeds each text of a batch on its own. *)
Hypothesis encode_rows : ∀ texts, encode texts = encode_text <$> texts.

Lemma embed_batches_rows (fuel i batch_size : nat) (texts : list string)
    (all_embeddings : list E) :
  0 < batch_size →
  length texts - i ≤ fuel →
  embed_batches E encode fuel i batch_size texts all_embeddings
  = all_embeddings ++ (encode_text <$> drop i texts).
Proof.
  intros Hpos. revert i all_embeddings.
  induction fuel as [|fuel IH]; intros i all_embeddings Hfuel; simpl.
  - rewrite drop_ge by lia. by rewrite app_nil_r.
  - destruct (Nat.ltb_spec i (length texts)) as [Hi|Hi].
    + rewrite IH by lia. rewrite encode_rows, <-app_assoc, <-fmap_app.
      do 2 f_equal. rewrite <-drop_drop. apply take_drop.
    + rewrite drop_ge by lia. by rewrite app_nil_r.
Qed.

Lemma attach_embeddings_rows (chunks : list chunker.Chunk) (before : list E) :
  attach_embeddings E (length before) chunks
    (before ++ (encode_text <$> (chunker.text <$> chunks)))
  = Ok ((λ chunk, {| text := chunker.text chunk;
                     metadata := chunker.metadata chunk;
                     embedding := encode_text (chunker.text chunk) |})
        <$> chunks).
Proof.
  revert before. induction chunks as [|chunk chunks IH]; intros before; [done |].
  simpl. rewrite lookup_app_r, Nat.sub_diag by lia. simpl.
  specialize (IH (before ++ [encode_text (chunker.text chunk)])).
  rewrite length_app, Nat.add_1_r, <-app_assoc in IH. simpl in IH.
  match goal with |- bind ?x _ = _ => rewrite (IH : x = _) end. done.
Qed.

Lemma embed_chunks_rows (chunks : list chunker.Chunk) (batch_size : Z) :
  (0 < batch_size)%Z →
  embed_chunks E encode chunks batch_size
  = Ok ((λ chunk, {| text := chunker.text chunk;
                     metadata := chunker.metadata chunk;
                     embedding := encode_text (chunker.text chunk) |})
        <$> chunks).
Proof.
  intros Hpos. unfold embed_chunks.
  rewrite (proj2 (Z.eqb_neq _ _)) by lia.
  rewrite (proj2 (Z.ltb_ge _ _)) by lia.
  rewrite embed_batches_rows by lia. rewrite drop_0.
  apply (attach_embeddings_rows chunks []).
Qed.

End with_model.

(** X24. Batching is invisible: for a positive batch size, and a model that
    embeds each text of a batch on its own, every chunk comes back with its
    text, its metadata and the embedding of its own text, in the order
    given. *)
Theorem embed_chunks_batching {E : Type} (encode : list string → list E)
    (encode_text : string → E) (chunks : list chunker.Chunk) (batch_size : Z) :
  (∀ texts, encode texts = encode_text <$> texts) →
  (0 < batch_size)%Z →
  embed_chunks E encode chunks batch_size
  = Ok ((λ chunk, {| text := chunker.text chunk;
                     metadata := chunker.metadata chunk;
                     embedding := encode_text (chunker.text chunk) |})
        <$> chunks).
Proof. intros Hrows Hpos. by apply embed_chunks_rows. Qed.

Lemma embed_chunks_batching_witness :
  embed_chunks nat (fmap String.length)
    [{| chunker.text := "ab"; chunker.metadata := ∅ |};
     {| chunker.text := "cde"; chunker.metadata := ∅ |};
     {| chunker.text := "f"; chunker.metadata := ∅ |}] 2
  = Ok [{| text := "ab"; metadata := ∅; embedding := 2 |};
        {| text := "cde"; metadata := ∅; embedding := 3 |};
        {| text := "f"; metadata := ∅; embedding := 1 |}].
Proof.
  apply (embed_chunks_batching (fmap String.length) String.length); [done | lia].
Defined.

(** X25. A batch size that is not positive makes [embed_chunks] raise as soon as
    there is a chunk: zero at the [range], a negative one at the first
    embedding that is looked up. *)
Theorem embed_chunks_bad_batch_size {E : Type} (encode : list string → list E)
    (chunk : chunker.Chunk) (chunks : list chunker.Chunk) (batch_size : Z) :
  (batch_size ≤ 0)%Z →
  ∃ msg, embed_chunks E encode (chunk :: chunks) batch_size = Raise msg.
Proof.
  intros Hneg. unfold embed_chunks.
  destruct (Z.eqb_spec batch_size 0); [eauto |].
  rewrite (proj2 (Z.ltb_lt _ _)) by lia. simpl. eauto.
Qed.

Lemma embed_chunks_bad_batch_size_witness :
  ∃ msg,
    embed_chunks nat (fmap String.length)
      [{| chunker.text := "ab"; chunker.metadata := ∅ |}] (-32) = Raise msg.
Proof. apply embed_chunks_bad_batch_size. lia. Defined.

End EmbeddingsSpec.

(** ** [run.py]: the steps of the pipeline *)

Module run.

(** The flags of the command line. *)
Record Args := {
  collect : bool;
  process : bool;
  embed : bool;
  build_db : bool;
  check_model : bool;
  app : bool;
  all : bool
}.

Section with_steps.

(** Chunks and embedded chunks; what [process_data] returns, what
    [create_embeddings] makes of chunks, and what [load_embeddings] finds
    on disk. *)
Variables Chunks Embedded : Type.
Variable process_data : list Chunks.
Variable create_embeddings : list Chunks → list Embedded.
Variable load_embeddings : list Embedded.

(** The calls that [main] makes, in order. *)
Inductive Step :=
| SetupEnvironment
| CollectData
| ProcessData
| CreateEmbeddings (chunks : list Chunks)
| LoadEmbeddings
| BuildVectorDb (embedded_chunks : list Embedded)
| NoEmbeddedChunks
| DownloadLlmModel
| RunApp
| PrintHelp.

Definition main (args : Args) : list Step :=
  let steps := [SetupEnvironment] in
  let chunks : option (list Chunks) := None in
  let embedded_chunks : option (list Embedded) := None in
  let steps := if all args || collect args then steps ++ [CollectData] else steps in
  let '(steps, chunks) :=
    if all args || process args
    then (steps ++ [ProcessData], Some process_data)
    else (steps, chunks) in
  let '(steps, chunks, embedded_chunks) :=
    if all args || embed args
    then
      let '(steps, chunks) :=
        match chunks with
        | None => (steps ++ [ProcessData], process_data)
        | Some chunks => (steps, chunks)
        end in
      (steps ++ [CreateEmbeddings chunks], Some chunks,
       Some (create_embeddings chunks))
    else (steps, chunks, embedded_chunks) in
  let steps :=
    if all args || build_db args
    then
      let '(steps, embedded_chunks) :=
        match embedded_chunks with
        | None => (steps ++ [LoadEmbeddings], load_embeddings)
        | Some embedded_chunks => (steps, embedded_chunks)
        end in
      match embedded_chunks with
      | [] => steps ++ [NoEmbeddedChunks]
      | _ => steps ++ [BuildVectorDb embedded_chunks]
      end
    else steps in
  let steps := if all args || check_model args then steps ++ [DownloadLlmModel] else steps in
  let steps := if all args || app args then steps ++ [RunApp] else steps in
  if negb (collect args || process args || embed args || build_db args
           || check_model args || app args || all args)
  then steps ++ [PrintHelp]
  else steps.

End with_steps.

Arguments SetupEnvironment {Chunks Embedded}.
Arguments CollectData {Chunks Embedded}.
Arguments ProcessData {Chunks Embedded}.
Arguments CreateEmbeddings {Chunks Embedded} chunks.
Arguments LoadEmbeddings {Chunks Embedded}.
Arguments BuildVectorDb {Chunks Embedded} embedded_chunks.
Arguments NoEmbeddedChunks {Chunks Embedded}.
Arguments DownloadLlmModel {Chunks Embedded}.
Arguments RunApp {Chunks Embedded}.
Arguments PrintHelp {Chunks Embedded}.
Arguments main {Chunks Embedded} process_data create_embeddings load_embeddings args.

End run.

Module RunSpec.
Import run.

Section with_steps.

Context {Chunks Embedded : Type}.
Variable process_data : list Chunks.
Variable create_embeddings : list Chunks → list Embedded.
Variable load_embeddings : list Embedded.

Local Ltac run_cases args :=
  destruct args as [[] [] [] [] [] [] []]; cbn -[elem_of lookup];
  repeat case_match; cbn -[elem_of lookup].

Local Ltac step_in Hmem :=
  set_unfold in Hmem; repeat destruct Hmem as [Hmem|Hmem];
  try discriminate Hmem; try (injection Hmem as Hmem; subst).

(** X26. Embeddings are only ever made of the chunks of a processing step, and
    that step comes directly before: also when [--embed] is given alone. *)
Theorem embed_follows_process (args : Args) (chunks : list Chunks) :
  CreateEmbeddings chunks
    ∈ main process_data create_embeddings load_embeddings args →
  chunks = process_data
  ∧ ∃ i,
      main process_data create_embeddings load_embeddings args !! i
      = Some ProcessData
      ∧ main process_data create_embeddings load_embeddings args !! S i
        = Some (CreateEmbeddings chunks).
Proof.
  run_cases args; intros Hmem; step_in Hmem; try done;
    (split; [done |]); first [by exists 1 | by exists 2].
Qed.

(** X27. The vector database is never built from nothing: the embedded chunks
    handed to it are not empty, and they are those just made when the
    embedding step ran, and those loaded from disk otherwise. *)
Theorem build_db_not_empty (args : Args) (embedded_chunks : list Embedded) :
  BuildVectorDb embedded_chunks
    ∈ main process_data create_embeddings load_embeddings args →
  embedded_chunks ≠ []
  ∧ embedded_chunks
    = if all args || embed args then create_embeddings process_data
      else load_embeddings.
Proof.
  run_cases args; intros Hmem; step_in Hmem; try done;
    (split; [| done]); congruence.
Qed.


End with_steps.

Definition embed_only : Args :=
  {| collect := false; process := false; embed := true; build_db := false;
     check_model := false; app := false; all := false |}.

Definition build_only : Args :=
  {| collect := false; process := false; embed := false; build_db := true;
     check_model := false; app := false; all := false |}.

Lemma embed_follows_process_witness :
  [10; 20] = [10; 20]
  ∧ ∃ i,
      main [10; 20] (fmap S) [] embed_only !! i = Some ProcessData
      ∧ main [10; 20] (fmap S) [] embed_only !! S i
        = Some (CreateEmbeddings [10; 20]).
Proof.
  apply (embed_follows_process [10; 20] (fmap S) [] embed_only [10; 20]).
  apply list_elem_of_lookup. by exists 2.
Defined.

Lemma build_db_not_empty_witness :
  [7] ≠ [] ∧ [7] = if all build_only || embed build_only then S <$> [10] else [7].
Proof.
  apply (build_db_not_empty [10] (fmap S) [7] build_only [7]).
  apply list_elem_of_lookup. by exists 2.
Defined.

End RunSpec.

(** ** [src/preprocessing/text_cleaner.py] *)

Module text_cleaner.
Import Py chunker.

(** [re.sub(r'\s+', ' ', text)]: every maximal run of whitespace becomes
    one blank; [in_run] tells that the run has been replaced already. *)
Fixpoint sub_whitespace (in_run : bool) (text : string) : string :=
  match text with
  | "" => ""
  | String c text' =>
      if is_space c
      then if in_run then sub_whitespace true text'
           else String " " (sub_whitespace true text')
      else String c (sub_whitespace false text')
  end.

(** The text starts with [prefix] followed by a character that is not
    whitespace. *)
Fixpoint starts_with_then_nonspace (prefix text : string) : bool :=
  match prefix, text with
  | "", String c _ => negb (is_space c)
  | String a prefix', String c text' =>
      bool_decide (a = c) && starts_with_then_nonspace prefix' text'
  | _, "" => false
  end.

(** A match of [https?://\S+|www\.\S+] starts here. *)
Definition url_at (text : string) : bool :=
  starts_with_then_nonspace "http://" text
  || starts_with_then_nonspace "https://" text
  || starts_with_then_nonspace "www." text.

(** [re.sub(r'https?://\S+|www\.\S+', '[URL]', text)]: a match runs to the
    end of its run of non-whitespace; [in_match] tells that the scan is
    inside a match that has been replaced. *)
Fixpoint sub_urls (in_match : bool) (text : string) : string :=
  match text with
  | "" => ""
  | String c text' =>
      if in_match
      then if is_space c then String c (sub_urls false text')
           else sub_urls true text'
      else if url_at text then "[URL]" +:+ sub_urls true text'
           else String c (sub_urls false text')
  end.

(** Within the run of non-whitespace at the head of the text there is an
    [@] followed by a character of the run. *)
Fixpoint at_inside (text : string) : bool :=
  match text with
  | "" => false
  | String c text' =>
      negb (is_space c)
      && ((bool_decide (c = "@"%char)
           && match text' with
              | "" => false
              | String c' _ => negb (is_space c')
              end)
          || at_inside text')
  end.

(** A match of [\S+@\S+] starts here: one character of the run at least
    comes before the [@]. *)
Definition email_at (text : string) : bool :=
  match text with
  | "" => false
  | String c text' => negb (is_space c) && at_inside text'
  end.

(** [re.sub(r'\S+@\S+', '[EMAIL]', text)] *)
Fixpoint sub_emails (in_match : bool) (text : string) : string :=
  match text with
  | "" => ""
  | String c text' =>
      if in_match
      then if is_space c then String c (sub_emails false text')
           else sub_emails true text'
      else if email_at text then "[EMAIL]" +:+ sub_emails true text'
           else String c (sub_emails false text')
  end.

(** [re.sub(r'\n+', '\n', text)] and [re.sub(r' +', ' ', text)]: a run of
    the character [c] becomes one [c]. *)
Fixpoint sub_run (c : ascii) (in_run : bool) (text : string) : string :=
  match text with
  | "" => ""
  | String c' text' =>
      if bool_decide (c' = c)
      then if in_run then sub_run c true text'
           else String c (sub_run c true text')
      else String c' (sub_run c false text')
  end.

(** [clean_text].  The four [replace] calls of line 31 look for the
    typographic quotes U+2018, U+2019, U+201C and U+201D, which a text in
    the modelled range does not hold: they leave it as it is. *)
Definition clean_text (text : string) : string :=
  let text := strip (sub_whitespace false text) in
  let text := sub_urls false text in
  let text := sub_emails false text in
  let text := sub_run "010" false text in
  let text := sub_run " " false text in
  text.

(** [clean_chunks] *)
Definition clean_chunks (chunks : list Chunk) : list Chunk :=
  (λ chunk, {| text := clean_text (text chunk); metadata := metadata chunk |})
  <$> chunks.

End text_cleaner.

Module CleanerExamples.
Import Py text_cleaner.

Example clean_sample :
  clean_text ("This is a   test" +:+ LF +:+ LF
              +:+ "with multiple spaces   and newlines. https://example.com")
  = "This is a test with multiple spaces and newlines. [URL]".
Proof. by vm_compute. Qed.

Example clean_mail_and_links :
  clean_text "  Mail me@site.org,  see xwww.a.b or http://  now @x a@ "
  = "Mail [EMAIL] see x[URL] or http:// now @x a@".
Proof. by vm_compute. Qed.

End CleanerExamples.

Module CleanerSpec.
Import Py PyFacts StripFacts chunker text_cleaner.

(** *** Words *)

Fixpoint nospace (s : string) : bool :=
  match s with
  | "" => true
  | String c s' => negb (is_space c) && nospace s'
  end.

(** A word: not empty, and without whitespace. *)
Definition word (w : string) : Prop := w ≠ "" ∧ nospace w = true.

Lemma word_cons (c : ascii) (w : string) :
  is_space c = false → nospace w = true → word (String c w).
Proof. intros Hc Hw. split; [done |]. simpl. by rewrite Hc, Hw. Qed.

Lemma split_gives_words (s : string) : Forall word (split s).
Proof.
  induction s as [|c s IH]; [constructor |]. simpl.
  destruct (is_space c) eqn:Hc; [done |].
  destruct s as [|c' s']; [repeat constructor; by apply word_cons |].
  destruct (is_space c') eqn:Hc'.
  - constructor; [by apply word_cons | done].
  - destruct (split (String c' s')) as [|w ws];
      [repeat constructor; by apply word_cons |].
    apply Forall_cons in IH as [[_ Hw] Hws]. simpl.
    constructor; [by apply word_cons | done].
Qed.

Lemma join_cons (w w' : string) (ws : list string) :
  join " " (w :: w' :: ws) = w +:+ " " +:+ join " " (w' :: ws).
Proof. done. Qed.

Lemma join_words_nonempty (w : string) (ws : list string) :
  word w → join " " (w :: ws) ≠ "".
Proof.
  intros [Hw _]. destruct w; [done |].
  destruct ws; [done |]. by rewrite join_cons, string_app_cons.
Qed.

Lemma split_word_then_blank (w rest : string) :
  word w → split (w +:+ String " " rest) = w :: split rest.
Proof.
  intros [Hne Hw]. induction w as [|c w IH]; [done |].
  simpl in Hw. apply andb_prop in Hw as [Hc Hw]. apply negb_true_iff in Hc.
  rewrite string_app_cons. simpl. rewrite Hc.
  destruct w as [|c' w'].
  - by rewrite string_app_nil_l.
  - rewrite string_app_cons. pose proof Hw as Hw'.
    simpl in Hw'. apply andb_prop in Hw' as [Hc' _].
    apply negb_true_iff in Hc'. rewrite Hc'.
    rewrite <-string_app_cons, IH by done. done.
Qed.

Lemma split_word (w : string) : word w → split w = [w].
Proof.
  intros [Hne Hw]. induction w as [|c w IH]; [done |].
  simpl in Hw. apply andb_prop in Hw as [Hc Hw]. apply negb_true_iff in Hc.
  simpl. rewrite Hc. destruct w as [|c' w']; [done |].
  pose proof Hw as Hw'. simpl in Hw'. apply andb_prop in Hw' as [Hc' _].
  apply negb_true_iff in Hc'. rewrite Hc'. by rewrite IH.
Qed.

(** Splitting the words joined by single blanks gives the words back. *)
Lemma split_join_words (ws : list string) :
  Forall word ws → split (join " " ws) = ws.
Proof.
  induction ws as [|w ws IH]; [done |].
  intros [Hw Hws]%Forall_cons. destruct ws as [|w' ws]; [by apply split_word |].
  rewrite join_cons.
  change (w +:+ " " +:+ join " " (w' :: ws))
    with (w +:+ String " " (join " " (w' :: ws))).
  rewrite split_word_then_blank by done. by rewrite IH.
Qed.

(** *** The first substitution *)

Lemma sub_whitespace_in_run (s : string) :
  sub_whitespace true s = sub_whitespace false (lstrip s).
Proof.
  induction s as [|c s IH]; [done |]. simpl.
  destruct (is_space c) eqn:Hc; [done |]. simpl. by rewrite Hc.
Qed.

Lemma collapse_is_join_split (s : string) :
  rstrip (sub_whitespace false (lstrip s)) = join " " (split s).
Proof.
  induction s as [|c s IH]; [done |]. simpl lstrip. simpl split.
  destruct (is_space c) eqn:Hc; [done |].
  simpl sub_whitespace. rewrite Hc.
  destruct s as [|c' s'] eqn:Hs.
  - simpl. by rewrite Hc.
  - rewrite <-Hs in *. rewrite rstrip_cons.
    assert (Forall word (split s)) as Hwords by apply split_gives_words.
    destruct (is_space c') eqn:Hc'.
    + assert (sub_whitespace false s
              = String " " (sub_whitespace false (lstrip s))) as ->.
      { subst s. simpl. rewrite Hc'. by rewrite sub_whitespace_in_run. }
      rewrite rstrip_cons, IH.
      destruct (split s) as [|w ws] eqn:Hsplit.
      * simpl. by rewrite Hc.
      * apply Forall_cons in Hwords as [Hw _].
        pose proof (join_words_nonempty w ws Hw) as Hne.
        rewrite (bool_decide_eq_false_2 (join " " (w :: ws) = "")) by done.
        rewrite bool_decide_eq_false_2 by done.
        by rewrite join_cons.
    + assert (lstrip s = s) as Hl by (subst s; simpl; by rewrite Hc').
      rewrite Hl in IH. rewrite IH.
      destruct (split s) as [|w ws] eqn:Hsplit.
      { subst s. simpl in Hsplit. rewrite Hc' in Hsplit.
        destruct s' as [|c'' s'']; [done |].
        destruct (is_space c''); [done |].
        by destruct (split (String c'' s'')). }
      apply Forall_cons in Hwords as [Hw _].
      rewrite bool_decide_eq_false_2 by by apply join_words_nonempty.
      simpl cons_head. destruct ws; [done |].
      by rewrite !join_cons, string_app_cons.
Qed.

Lemma lstrip_sub_whitespace (s : string) :
  lstrip (sub_whitespace false s) = sub_whitespace false (lstrip s).
Proof.
  induction s as [|c s IH]; [done |]. simpl.
  destruct (is_space c) eqn:Hc; simpl; [| by rewrite Hc].
  rewrite sub_whitespace_in_run.
  destruct (ChunkerExtra.lstrip_cases s) as [-> | Hh]; [done |].
  destruct (lstrip s) as [|c' t]; [done |]. simpl in *.
  apply negb_true_iff in Hh. rewrite Hh. simpl. by rewrite Hh.
Qed.

(** The first line of [clean_text] leaves the words of the text, joined by
    single blanks. *)
Lemma strip_sub_whitespace (s : string) :
  strip (sub_whitespace false s) = join " " (split s).
Proof.
  unfold strip. rewrite lstrip_sub_whitespace. apply collapse_is_join_split.
Qed.


(** *** The substitutions, word by word *)

Lemma nospace_app (a b : string) :
  nospace (a +:+ b) = nospace a && nospace b.
Proof.
  induction a as [|c a IH]; [done |].
  rewrite string_app_cons. simpl. by rewrite IH, andb_assoc.
Qed.

Lemma nospace_cons (c : ascii) (w : string) :
  nospace (String c w) = true → is_space c = false ∧ nospace w = true.
Proof.
  simpl. intros [Hc Hw]%andb_prop. by apply negb_true_iff in Hc.
Qed.

Lemma starts_with_then_nonspace_app (prefix w rest : string) :
  nospace prefix = true →
  starts_with_then_nonspace prefix (w +:+ String " " rest)
  = starts_with_then_nonspace prefix w.
Proof.
  revert w. induction prefix as [|a prefix IH]; intros w Hp.
  - by destruct w.
  - apply nospace_cons in Hp as [Ha Hp]. destruct w as [|c w].
    + rewrite string_app_nil_l. simpl.
      rewrite bool_decide_eq_false_2; [done |]. by intros ->.
    + rewrite string_app_cons. simpl. by rewrite IH.
Qed.

Lemma url_at_app (w rest : string) :
  url_at (w +:+ String " " rest) = url_at w.
Proof. unfold url_at. by rewrite !starts_with_then_nonspace_app. Qed.

Lemma sub_urls_app (in_match : bool) (w rest : string) :
  nospace w = true →
  sub_urls in_match (w +:+ String " " rest)
  = sub_urls in_match w +:+ String " " (sub_urls false rest).
Proof.
  revert in_match. induction w as [|c w IH]; intros in_match Hw.
  - rewrite !string_app_nil_l. by destruct in_match.
  - apply nospace_cons in Hw as [Hc Hw].
    pose proof (url_at_app (String c w) rest) as Hurl.
    rewrite string_app_cons in Hurl.
    rewrite string_app_cons. cbn [sub_urls]. rewrite Hc, Hurl, !IH by done.
    destruct in_match; [done |].
    destruct (url_at (String c w)); [| done].
    by rewrite string_app_assoc.
Qed.

Lemma sub_urls_nospace (in_match : bool) (w : string) :
  nospace w = true → nospace (sub_urls in_match w) = true.
Proof.
  revert in_match. induction w as [|c w IH]; intros in_match Hw; [done |].
  apply nospace_cons in Hw as [Hc Hw]. cbn [sub_urls]. rewrite Hc.
  destruct in_match; [by apply IH |].
  destruct (url_at (String c w)).
  - rewrite nospace_app, IH by done. done.
  - simpl. by rewrite Hc, IH.
Qed.

Lemma sub_urls_word (w : string) : word w → word (sub_urls false w).
Proof.
  intros [Hne Hw]. split; [| by apply sub_urls_nospace].
  destruct w as [|c w]; [done |]. cbn [sub_urls].
  by destruct (url_at (String c w)).
Qed.

(** Over words joined by blanks the links are replaced in each word. *)
Lemma sub_urls_join (ws : list string) :
  Forall word ws →
  sub_urls false (join " " ws) = join " " (sub_urls false <$> ws).
Proof.
  induction ws as [|w ws IH]; [done |]. intros [Hw Hws]%Forall_cons.
  destruct ws as [|w' ws]; [done |].
  rewrite fmap_cons. rewrite fmap_cons in IH. rewrite fmap_cons.
  rewrite !join_cons.
  change (w +:+ " " +:+ join " " (w' :: ws))
    with (w +:+ String " " (join " " (w' :: ws))).
  rewrite sub_urls_app by apply Hw. by rewrite IH.
Qed.

Lemma at_inside_app (w rest : string) :
  at_inside (w +:+ String " " rest) = at_inside w.
Proof.
  induction w as [|c w IH]; [done |].
  rewrite string_app_cons. cbn [at_inside]. rewrite IH.
  by destruct w.
Qed.

Lemma email_at_app (w rest : string) :
  email_at (w +:+ String " " rest) = email_at w.
Proof.
  destruct w as [|c w]; [done |].
  rewrite string_app_cons. unfold email_at. by rewrite at_inside_app.
Qed.

Lemma sub_emails_app (in_match : bool) (w rest : string) :
  nospace w = true →
  sub_emails in_match (w +:+ String " " rest)
  = sub_emails in_match w +:+ String " " (sub_emails false rest).
Proof.
  revert in_match. induction w as [|c w IH]; intros in_match Hw.
  - rewrite !string_app_nil_l. by destruct in_match.
  - apply nospace_cons in Hw as [Hc Hw].
    pose proof (email_at_app (String c w) rest) as Hmail.
    rewrite string_app_cons in Hmail.
    rewrite string_app_cons. cbn [sub_emails]. rewrite Hc, Hmail, !IH by done.
    destruct in_match; [done |].
    destruct (email_at (String c w)); [| done].
    by rewrite string_app_assoc.
Qed.

Lemma sub_emails_in_match (w : string) :
  nospace w = true → sub_emails true w = "".
Proof.
  induction w as [|c w IH]; [done |]. intros [Hc Hw]%nospace_cons.
  cbn [sub_emails]. rewrite Hc. by apply IH.
Qed.

Lemma sub_emails_no_at (w : string) :
  nospace w = true → at_inside w = false → sub_emails false w = w.
Proof.
  induction w as [|c w IH]; [done |]. intros [Hc Hw]%nospace_cons Hat.
  cbn [at_inside] in Hat. rewrite Hc in Hat. simpl in Hat.
  apply orb_false_iff in Hat as [_ Hat].
  cbn [sub_emails]. unfold email_at. rewrite Hc, Hat. simpl.
  by rewrite IH.
Qed.

(** A word that holds an address is replaced as a whole; another word is
    left as it is. *)
Lemma sub_emails_whole_word (w : string) :
  nospace w = true →
  sub_emails false w = if email_at w then "[EMAIL]" else w.
Proof.
  destruct w as [|c w]; [done |]. intros [Hc Hw]%nospace_cons.
  cbn [sub_emails]. destruct (email_at (String c w)) eqn:Hat.
  - by rewrite sub_emails_in_match.
  - unfold email_at in Hat. rewrite Hc in Hat. simpl in Hat.
    by rewrite sub_emails_no_at.
Qed.

Lemma sub_emails_word (w : string) : word w → word (sub_emails false w).
Proof.
  intros [Hne Hw]. rewrite sub_emails_whole_word by done.
  by destruct (email_at w).
Qed.

Lemma sub_emails_join (ws : list string) :
  Forall word ws →
  sub_emails false (join " " ws) = join " " (sub_emails false <$> ws).
Proof.
  induction ws as [|w ws IH]; [done |]. intros [Hw Hws]%Forall_cons.
  destruct ws as [|w' ws]; [done |].
  rewrite fmap_cons. rewrite fmap_cons in IH. rewrite fmap_cons.
  rewrite !join_cons.
  change (w +:+ " " +:+ join " " (w' :: ws))
    with (w +:+ String " " (join " " (w' :: ws))).
  rewrite sub_emails_app by apply Hw. by rewrite IH.
Qed.

(** *** The runs of newlines and of blanks *)

Lemma sub_run_word (c : ascii) (in_run : bool) (w rest : string) :
  is_space c = true → nospace w = true →
  sub_run c in_run (w +:+ rest)
  = w +:+ sub_run c (if w is "" then in_run else false) rest.
Proof.
  intros Hspace. revert in_run.
  induction w as [|c' w IH]; intros in_run Hw; [done |].
  apply nospace_cons in Hw as [Hc' Hw].
  rewrite !string_app_cons. cbn [sub_run].
  rewrite bool_decide_eq_false_2 by congruence.
  rewrite IH by done. by destruct w.
Qed.

Lemma sub_run_newlines_join (in_run : bool) (ws : list string) :
  Forall word ws → sub_run "010" in_run (join " " ws) = join " " ws.
Proof.
  revert in_run. induction ws as [|w ws IH]; intros in_run; [done |].
  intros [[Hne Hw] Hws]%Forall_cons. destruct ws as [|w' ws].
  - change (join " " [w]) with w.
    rewrite <-(string_app_nil_r w) at 1.
    rewrite sub_run_word by done. simpl. by rewrite string_app_nil_r.
  - rewrite join_cons, sub_run_word by done.
    destruct w as [|c w]; [done |].
    change (" " +:+ join " " (w' :: ws))
      with (String " " (join " " (w' :: ws))).
    cbn [sub_run]. rewrite bool_decide_eq_false_2 by done.
    by rewrite IH.
Qed.

Lemma sub_run_blanks_join (in_run : bool) (ws : list string) :
  Forall word ws → sub_run " " in_run (join " " ws) = join " " ws.
Proof.
  revert in_run. induction ws as [|w ws IH]; intros in_run; [done |].
  intros [[Hne Hw] Hws]%Forall_cons. destruct ws as [|w' ws].
  - change (join " " [w]) with w.
    rewrite <-(string_app_nil_r w) at 1.
    rewrite sub_run_word by done. simpl. by rewrite string_app_nil_r.
  - rewrite join_cons, sub_run_word by done.
    destruct w as [|c w]; [done |].
    change (" " +:+ join " " (w' :: ws))
      with (String " " (join " " (w' :: ws))).
    cbn [sub_run]. rewrite bool_decide_eq_true_2 by done.
    by rewrite IH.
Qed.

(** *** [clean_text] *)

(** What [clean_text] makes of one word: the links in it become [[URL]],
    and if an address is left after that the word becomes [[EMAIL]]. *)
Definition clean_word (w : string) : string :=
  let w := sub_urls false w in
  if email_at w then "[EMAIL]" else w.

Lemma clean_word_subs (w : string) :
  word w → sub_emails false (sub_urls false w) = clean_word w.
Proof.
  intros Hw. unfold clean_word.
  apply sub_emails_whole_word, sub_urls_word, Hw.
Qed.

Lemma clean_word_word (w : string) : word w → word (clean_word w).
Proof.
  intros Hw. rewrite <-clean_word_subs by done.
  by apply sub_emails_word, sub_urls_word.
Qed.

Lemma Forall_word_fmap (f : string → string) (ws : list string) :
  (∀ w, word w → word (f w)) → Forall word ws → Forall word (f <$> ws).
Proof.
  intros Hf. induction 1 as [|w ws Hw Hws IH]; [constructor |].
  rewrite fmap_cons. constructor; [by apply Hf | done].
Qed.

Lemma clean_text_words (ws : list string) :
  Forall word ws →
  clean_text (join " " ws) = join " " (clean_word <$> ws).
Proof.
  intros Hws. unfold clean_text.
  rewrite strip_sub_whitespace, split_join_words by done.
  rewrite sub_urls_join by done.
  pose proof (Forall_word_fmap _ _ sub_urls_word Hws) as Hws1.
  rewrite sub_emails_join by done.
  pose proof (Forall_word_fmap _ _ sub_emails_word Hws1) as Hws2.
  rewrite sub_run_newlines_join, sub_run_blanks_join by done.
  rewrite <-list_fmap_compose. f_equal.
  apply Forall_fmap_ext_1. eapply Forall_impl; [apply Hws |].
  intros w Hw. by apply clean_word_subs.
Qed.

Lemma clean_text_join_split (text : string) :
  clean_text text = clean_text (join " " (split text)).
Proof.
  unfold clean_text.
  by rewrite !strip_sub_whitespace, split_join_words by apply split_gives_words.
Qed.


(** *** Cleaning twice *)

Fixpoint no_bracket (s : string) : bool :=
  match s with
  | "" => true
  | String c s' => negb (bool_decide (c = "["%char)) && no_bracket s'
  end.

Lemma sub_urls_in_match (w : string) :
  nospace w = true → sub_urls true w = "".
Proof.
  induction w as [|c w IH]; [done |]. intros [Hc Hw]%nospace_cons.
  cbn [sub_urls]. rewrite Hc. by apply IH.
Qed.

(** A word that starts with a link is replaced as a whole. *)
Lemma sub_urls_cons (c : ascii) (w : string) :
  nospace (String c w) = true →
  sub_urls false (String c w)
  = if url_at (String c w) then "[URL]" else String c (sub_urls false w).
Proof.
  intros [Hc Hw]%nospace_cons. cbn [sub_urls].
  by rewrite sub_urls_in_match.
Qed.

Lemma starts_with_sub_urls (prefix v : string) :
  no_bracket prefix = true → nospace v = true →
  starts_with_then_nonspace prefix (sub_urls false v) = true →
  starts_with_then_nonspace prefix v = true.
Proof.
  revert v. induction prefix as [|a prefix IH]; intros v Hp Hv.
  - destruct v as [|c v]; [done |]. intros _.
    apply nospace_cons in Hv as [Hc _]. simpl. by rewrite Hc.
  - destruct v as [|c v]; [done |].
    simpl in Hp. apply andb_prop in Hp as [Ha Hp].
    apply negb_true_iff, bool_decide_eq_false in Ha.
    rewrite sub_urls_cons by done. apply nospace_cons in Hv as [Hc Hv].
    destruct (url_at (String c v)).
    + simpl. rewrite bool_decide_eq_false_2 by done. done.
    + simpl. intros [Hac Hrest]%andb_prop. rewrite Hac. simpl.
      by apply IH.
Qed.

Lemma url_at_sub_urls (v : string) :
  nospace v = true → url_at v = false → url_at (sub_urls false v) = false.
Proof.
  intros Hv Hno. destruct (url_at (sub_urls false v)) eqn:Hurl; [| done].
  unfold url_at in *.
  apply orb_false_iff in Hno as [[H1 H2]%orb_false_iff H3].
  apply orb_true_iff in Hurl as [[H | H]%orb_true_iff | H];
    apply starts_with_sub_urls in H; congruence || done.
Qed.

Lemma sub_urls_idempotent (w : string) :
  nospace w = true → sub_urls false (sub_urls false w) = sub_urls false w.
Proof.
  induction w as [|c w IH]; [done |]. intros Hw.
  pose proof (url_at_sub_urls _ Hw) as Hkeep.
  rewrite sub_urls_cons in * by done.
  pose proof Hw as [Hc Hw']%nospace_cons.
  destruct (url_at (String c w)) eqn:Hurl; [done |].
  rewrite sub_urls_cons, Hkeep, IH; [done .. |].
  simpl. by rewrite Hc, sub_urls_nospace.
Qed.

Lemma clean_word_idempotent (w : string) :
  nospace w = true → clean_word (clean_word w) = clean_word w.
Proof.
  intros Hw. unfold clean_word.
  destruct (email_at (sub_urls false w)) eqn:Hmail; [done |].
  by rewrite sub_urls_idempotent, Hmail.
Qed.

Lemma clean_text_twice (text : string) :
  clean_text (clean_text text) = clean_text text.
Proof.
  rewrite (clean_text_join_split text).
  pose proof (split_gives_words text) as Hws.
  rewrite clean_text_words by done.
  rewrite clean_text_words by by apply Forall_word_fmap, Hws; apply clean_word_word.
  rewrite <-list_fmap_compose. f_equal.
  apply Forall_fmap_ext_1. eapply Forall_impl; [apply Hws |].
  intros w [_ Hw]. by apply clean_word_idempotent.
Qed.

(** X29.  [clean_text] works on the words of the text, the maximal runs of
    characters that are not whitespace: the result is the cleaned words,
    in their order, with one blank between two of them.  In a word, what
    starts with [http://], [https://] or [www.] and goes on becomes
    [[URL]] up to the end of the word; a word in which an [@] with a
    character on each side is left after that becomes [[EMAIL]] as a
    whole.  So the result holds no newline, no run of blanks, and no
    whitespace at its ends. *)
Theorem clean_text_word_by_word (text : string) :
  clean_text text = join " " (clean_word <$> split text)
  ∧ split (clean_text text) = clean_word <$> split text.
Proof.
  pose proof (split_gives_words text) as Hws.
  rewrite clean_text_join_split, clean_text_words by done.
  split; [done |].
  apply split_join_words, Forall_word_fmap; [apply clean_word_word | done].
Qed.

(** X30.  Cleaning a text that has been cleaned changes nothing, and so
    does cleaning the chunks a second time: the markers [[URL]] and
    [[EMAIL]] are not links or addresses themselves, and putting them in
    does not make a new link or address out of what stands before
    them. *)
Theorem clean_chunks_idempotent (text : string) (chunks : list Chunk) :
  clean_text (clean_text text) = clean_text text
  ∧ clean_chunks (clean_chunks chunks) = clean_chunks chunks.
Proof.
  split; [apply clean_text_twice |].
  unfold clean_chunks. rewrite <-list_fmap_compose.
  apply list_fmap_ext. intros _ chunk _. simpl.
  by rewrite clean_text_twice.
Qed.

End CleanerSpec.
